(** * data-lake: the Sparkify ETL job ([etl.py]) over a model of its engine

    [etl.py] is a sequence of calls to a dataframe/SQL engine.  The
    embedding keeps that shape: a data frame is a list of column names
    with a list of rows, the engine calls used by the script ([select],
    [selectExpr], [filter], [distinct], [withColumn], [sql], the readers
    and the writer) are functions on data frames, and the two pipelines
    and the driver are written in a reader/state/error monad over the file
    store, the temporary views of the session and the session log.

    Actions run eagerly, in program order.  What the engine computes on
    numbers and dates (the division of doubles, the cast to a timestamp,
    the calendar fields) is an interface, [Engine]; a reference instance
    (binary64, UTC) is given for the examples. *)

From Stdlib Require Import ZArith String Ascii List Floats.SpecFloat.
From stdpp Require Import base decidable option list strings gmap pretty.

Local Open Scope string_scope.
Local Open Scope Z_scope.

(** ** The engine's scalar interface *)

Class Engine (double timestamp : Type) := {
  (* LONG or INT to DOUBLE, the implicit cast of [/] *)
  to_double : Z → double;
  (* [/] on doubles; a zero divisor gives SQL null *)
  double_div : double → double → option double;
  (* [cast('timestamp')] of a number of seconds since the epoch *)
  double_to_timestamp : double → option timestamp;
  hour : timestamp → Z;
  day : timestamp → Z;
  weekofyear : timestamp → Z;
  month : timestamp → Z;
  year : timestamp → Z;
  dayofweek : timestamp → Z
}.

Inductive sql_type := STRING | INT | LONG | DOUBLE | TIMESTAMP.

#[global] Instance sql_type_eq_dec : EqDecision sql_type.
Proof. solve_decision. Defined.

(** ** Schema text

    The readers are given their schema as DDL text, [name TYPE] items
    separated by commas, laid out over several lines. *)

Definition is_space (c : ascii) : bool :=
  match nat_of_ascii c with
  | 32%nat | 9%nat | 10%nat | 13%nat => true
  | _ => false
  end.

Definition is_comma (c : ascii) : bool := bool_decide (c = ","%char).

(* [split_on sep s]: the pieces of [s] between the characters picked by [sep] *)
Fixpoint split_on (sep : ascii → bool) (s : string) : list string :=
  match s with
  | EmptyString => [EmptyString]
  | String c s' =>
      if sep c then EmptyString :: split_on sep s'
      else match split_on sep s' with
           | w :: ws => String c w :: ws
           | [] => [String c EmptyString]
           end
  end.

Definition words (s : string) : list string :=
  filter (λ w, w ≠ EmptyString) (split_on is_space s).

Definition parse_type (w : string) : option sql_type :=
  if String.eqb w "STRING" then Some STRING
  else if String.eqb w "INT" then Some INT
  else if String.eqb w "LONG" then Some LONG
  else if String.eqb w "DOUBLE" then Some DOUBLE
  else if String.eqb w "TIMESTAMP" then Some TIMESTAMP
  else None.

Definition parse_column (item : string) : option (string * sql_type) :=
  match words item with
  | [name; ty] => t ← parse_type ty; Some (name, t)
  | _ => None
  end.

Definition parse_ddl (ddl : string) : option (list (string * sql_type)) :=
  mapM parse_column (split_on is_comma ddl).

Definition song_schema : string := "
    song_id             STRING,
    num_songs           INT,
    artist_id           STRING,
    artist_latitude     DOUBLE,
    artist_longitude    DOUBLE,
    artist_location     STRING,
    artist_name         STRING,
    title               STRING,
    duration            DOUBLE,
    year                INT
    ".

Definition event_schema : string := "
    artist              STRING,
    auth                STRING,
    first_name          STRING,
    gender              STRING,
    item_in_session     INT,
    last_name           STRING,
    length              DOUBLE,
    level               STRING,
    location            STRING,
    method              STRING,
    page                STRING,
    registration        DOUBLE,
    session_id          LONG,
    song                STRING,
    status              INT,
    ts                  LONG,
    user_agent          STRING,
    user_id             LONG
    ".

(** Modelled from the spec: the lookup of a schema by source identifier.
    The script has no such function; each pipeline hands its own schema
    text to the reader.  The catalog answers with the parsed text of the
    pipeline that reads the source, and with nothing for any other name. *)
Definition schema_catalog (source : string) : option (list (string * sql_type)) :=
  if String.eqb source "song" then parse_ddl song_schema
  else if String.eqb source "event" then parse_ddl event_schema
  else None.

(* SongRecord as the data model enumerates it *)
Definition spec_song_record : list (string * sql_type) :=
  [("song_id", STRING); ("num_songs", INT); ("artist_id", STRING);
   ("artist_latitude", DOUBLE); ("artist_longitude", DOUBLE);
   ("artist_location", STRING); ("artist_name", STRING); ("title", STRING);
   ("duration", DOUBLE); ("year", INT)].

(* EventRecord as the data model enumerates it *)
Definition spec_event_record : list (string * sql_type) :=
  [("artist", STRING); ("auth", STRING); ("first_name", STRING);
   ("last_name", STRING); ("gender", STRING); ("item_in_session", INT);
   ("length", DOUBLE); ("level", STRING); ("location", STRING);
   ("method", STRING); ("page", STRING); ("registration", DOUBLE);
   ("session_id", LONG); ("song", STRING); ("status", INT); ("ts", LONG);
   ("user_agent", STRING); ("user_id", LONG)].

(** ** Values, rows and data frames *)

Section Model.
Context {double timestamp : Type}.
Context `{!EqDecision double, !EqDecision timestamp, !Engine double timestamp}.

(* A cell: SQL null, a string, an INT or LONG, a DOUBLE, a TIMESTAMP. *)
Inductive value :=
  | VNull
  | VStr (s : string)
  | VInt (z : Z)
  | VDbl (d : double)
  | VTs (t : timestamp).

#[global] Instance value_eq_dec : EqDecision value.
Proof. solve_decision. Defined.

Definition row := list value.

Record DataFrame := { columns : list string; rows : list row }.

#[global] Instance DataFrame_eq_dec : EqDecision DataFrame.
Proof. solve_decision. Defined.

(* [fit n r]: the row [r] at width [n], short rows filled with nulls *)
Definition fit (n : nat) (r : row) : row := take n (r ++ replicate n VNull)%list.

(* the cell of a row under a column name *)

(* a row for the columns [cols], from the fields it has; the others are null *)
Fixpoint lookup_field (name : string) (fields : list (string * value)) : value :=
  match fields with
  | [] => VNull
  | (n, v) :: fields' => if String.eqb n name then v else lookup_field name fields'
  end.

Definition row_of (cols : list string) (fields : list (string * value)) : row :=
  (λ c, lookup_field c fields) <$> cols.

(** ** Expressions

    The column expressions and predicates the script writes, as syntax.
    An expression is analysed against the columns in scope before any row
    is read: a name that is missing or ambiguous fails the call. *)

Inductive expr :=
  | Col (name : string)                 (* name *)
  | Qual (tbl name : string)            (* tbl.name *)
  | LitStr (s : string)                 (* 'text' *)
  | LitInt (z : Z)                      (* 200 *)
  | Div (a b : expr)                    (* a / b *)
  | CastTimestamp (e : expr)            (* e.cast('timestamp') *)
  | Call (f : string) (arg : expr)      (* f(arg) *)
  | Alias (e : expr) (name : string).   (* e as name *)

Inductive cond :=
  | CEq (a b : expr)                    (* a = b *)
  | CAnd (p q : cond).                  (* p AND q *)

(* The relations in scope, each under a name (the empty name for the data frame a
   method is called on), with their columns. *)
Definition scope := list (string * list string).

Definition df_scope (df : DataFrame) : scope := [(EmptyString, columns df)].

Fixpoint positions_from (i : nat) (name : string) (cols : list string) : list nat :=
  match cols with
  | [] => []
  | c :: cols' =>
      if String.eqb c name then i :: positions_from (S i) name cols'
      else positions_from (S i) name cols'
  end.

Fixpoint candidates_from (ti : nat) (q : option string) (name : string)
    (sc : scope) : list (nat * nat) :=
  match sc with
  | [] => []
  | (tbl, cols) :: sc' =>
      ((if match q with Some t => String.eqb t tbl | None => true end
       then pair ti <$> positions_from 0 name cols else [])
      ++ candidates_from (S ti) q name sc')%list
  end.

(* the cell of a row under a column name *)
Definition field (cols : list string) (name : string) (r : row) : value :=
  nth (hd 0%nat (positions_from 0 name cols)) r VNull.

(* A reference resolves when exactly one column in scope answers to it. *)
Definition resolve (sc : scope) (q : option string) (name : string) : option (nat * nat) :=
  match candidates_from 0 q name sc with
  | [p] => Some p
  | _ => None
  end.

(* One row per relation in scope. *)
Definition cell (env : list row) (p : nat * nat) : value :=
  nth (snd p) (nth (fst p) env []) VNull.

Definition as_double (v : value) : option double :=
  match v with
  | VInt z => Some (to_double z)
  | VDbl d => Some d
  | _ => None
  end.

Definition sql_div (a b : value) : value :=
  match as_double a, as_double b with
  | Some x, Some y => from_option VDbl VNull (double_div x y)
  | _, _ => VNull
  end.

(* The cast the script uses: a double, read as seconds, to a timestamp. *)
Definition sql_cast_timestamp (v : value) : value :=
  match v with
  | VDbl d => from_option VTs VNull (double_to_timestamp d)
  | VTs t => VTs t
  | _ => VNull
  end.

Definition on_timestamp (g : timestamp → Z) (v : value) : value :=
  match v with
  | VTs t => VInt (g t)
  | _ => VNull
  end.

Definition builtin (f : string) : option (value → value) :=
  if String.eqb f "hour" then Some (on_timestamp hour)
  else if String.eqb f "day" then Some (on_timestamp day)
  else if String.eqb f "weekofyear" then Some (on_timestamp weekofyear)
  else if String.eqb f "month" then Some (on_timestamp month)
  else if String.eqb f "year" then Some (on_timestamp year)
  else if String.eqb f "dayofweek" then Some (on_timestamp dayofweek)
  else None.

Fixpoint compile (sc : scope) (e : expr) : option (list row → value) :=
  match e with
  | Col n => p ← resolve sc None n; Some (λ env, cell env p)
  | Qual t n => p ← resolve sc (Some t) n; Some (λ env, cell env p)
  | LitStr s => Some (λ _, VStr s)
  | LitInt z => Some (λ _, VInt z)
  | Div a b =>
      fa ← compile sc a; fb ← compile sc b;
      Some (λ env, sql_div (fa env) (fb env))
  | CastTimestamp a => fa ← compile sc a; Some (λ env, sql_cast_timestamp (fa env))
  | Call f a => g ← builtin f; fa ← compile sc a; Some (λ env, g (fa env))
  | Alias a _ => compile sc a
  end.

(* SQL equality: unknown as soon as one side is null. *)
Definition sql_eq (a b : value) : option bool :=
  match a, b with
  | VNull, _ | _, VNull => None
  | _, _ => Some (bool_decide (a = b))
  end.

Definition sql_and (p q : option bool) : option bool :=
  match p, q with
  | Some false, _ | _, Some false => Some false
  | Some true, Some true => Some true
  | _, _ => None
  end.

Fixpoint compile_cond (sc : scope) (c : cond) : option (list row → option bool) :=
  match c with
  | CEq a b =>
      fa ← compile sc a; fb ← compile sc b;
      Some (λ env, sql_eq (fa env) (fb env))
  | CAnd p q =>
      fp ← compile_cond sc p; fq ← compile_cond sc q;
      Some (λ env, sql_and (fp env) (fq env))
  end.

(* The name a select item gets in the result. *)
Fixpoint output_name (e : expr) : string :=
  match e with
  | Col n => n
  | Qual _ n => n
  | LitStr s => s
  | LitInt z => pretty z
  | Div a b => "(" +:+ output_name a +:+ " / " +:+ output_name b +:+ ")"
  | CastTimestamp a => "CAST(" +:+ output_name a +:+ " AS TIMESTAMP)"
  | Call f a => f +:+ "(" +:+ output_name a +:+ ")"
  | Alias _ n => n
  end.

(** ** Data frame methods *)

Definition selectExpr (es : list expr) (df : DataFrame) : option DataFrame :=
  fs ← mapM (compile (df_scope df)) es;
  Some {| columns := output_name <$> es;
          rows := (λ r, (λ f : list row → value, f [r]) <$> fs) <$> rows df |}.

Definition select (names : list string) (df : DataFrame) : option DataFrame :=
  selectExpr (Col <$> names) df.

(* Rows on which the predicate is true; false and unknown are dropped. *)
Definition filter_where (c : cond) (df : DataFrame) : option DataFrame :=
  p ← compile_cond (df_scope df) c;
  Some {| columns := columns df;
          rows := filter (λ r, p [r] = Some true) (rows df) |}.

Definition distinct (df : DataFrame) : DataFrame :=
  {| columns := columns df; rows := remove_dups (rows df) |}.

(* [withColumn name e]: replaces the column of that name, or adds it last. *)
Definition withColumn (name : string) (e : expr) (df : DataFrame) : option DataFrame :=
  f ← compile (df_scope df) e;
  match positions_from 0 name (columns df) with
  | [] =>
      Some {| columns := (columns df ++ [name])%list;
              rows := (λ r, (fit (length (columns df)) r ++ [f [r]])%list) <$> rows df |}
  | i :: _ =>
      Some {| columns := columns df;
              rows := (λ r, <[i := f [r]]> (fit (length (columns df)) r)) <$> rows df |}
  end.

(** ** Queries: SELECT [DISTINCT] items FROM views WHERE predicate *)

Record query := {
  q_distinct : bool;
  q_select : list expr;
  q_from : list (string * string);      (* view AS alias *)
  q_where : cond
}.

(* All ways to pick one row from each relation. *)
Fixpoint cross (ts : list (list row)) : list (list row) :=
  match ts with
  | [] => [[]]
  | t :: ts' => r ← t; (cons r) <$> cross ts'
  end.

Definition run_query (q : query) (tables : list (string * DataFrame)) : option DataFrame :=
  let sc : scope := (λ t : string * DataFrame, (t.1, columns t.2)) <$> tables in
  fs ← mapM (compile sc) (q_select q);
  p ← compile_cond sc (q_where q);
  let joined := filter (λ env, p env = Some true) (cross ((rows ∘ snd) <$> tables)) in
  let out := (λ env, (λ f : list row → value, f env) <$> fs) <$> joined in
  Some {| columns := output_name <$> q_select q;
          rows := if q_distinct q then remove_dups out else out |}.

(** ** The world the job runs in

    The input files are read-only and seen through the typed reader: for a
    path pattern and a schema the reader gives the rows, or fails.  The
    output store maps a path to the table written there; what was written
    with partition columns and without a row holds no data file and cannot
    be read back.  A write can be refused by the store. *)

Inductive error :=
  | ParseException        (* schema text that does not parse *)
  | AnalysisException     (* unresolved name, missing path or view, no data file *)
  | IOError.              (* the store refuses the operation *)

Inductive outcome (A : Type) :=
  | Ok (a : A)
  | Raised (e : error).
#[global] Arguments Ok {A} a.
#[global] Arguments Raised {A} e.

Record Stored := { partition_by : list string; table : DataFrame }.

Record SparkSession := { conf : list (string * string) }.

Inductive session_event := SessionCreated | SessionStopped.

#[global] Instance session_event_eq_dec : EqDecision session_event.
Proof. solve_decision. Defined.

Record Env := {
  json_files : string → list (string * sql_type) → option (list row);
  write_ok : string → bool
}.

Record World := {
  storage : gmap string Stored;
  views : gmap string DataFrame;
  active : option SparkSession;
  session_log : list session_event     (* latest first *)
}.

Definition M (A : Type) : Type := Env → World → outcome A * World.

#[global] Instance M_ret : MRet M := λ A a _ w, (Ok a, w).
#[global] Instance M_bind : MBind M := λ A B k c env w,
  match c env w with
  | (Ok a, w') => k a env w'
  | (Raised e, w') => (Raised e, w')
  end.

Definition raise {A} (e : error) : M A := λ _ w, (Raised e, w).

Definition or_raise {A} (e : error) (o : option A) : M A :=
  match o with
  | Some a => mret a
  | None => raise e
  end.

(* an engine call that fails in analysis *)
Definition analysed {A} (o : option A) : M A := or_raise AnalysisException o.

Definition ask : M Env := λ env w, (Ok env, w).
Definition get : M World := λ _ w, (Ok w, w).
Definition put (w : World) : M unit := λ _ _, (Ok tt, w).

(** ** Session, readers, writer, views *)

(* the configuration [c] with [key] set to [value] *)
Definition set_conf (key value : string) (c : list (string * string)) :
    list (string * string) :=
  (key, value) :: filter (λ kv, kv.1 ≠ key) c.

(* SparkSession.builder.config(key, value).getOrCreate(): the active
   session when there is one, a new one otherwise; in both cases the
   option of the builder is applied to the session that is returned *)
Definition getOrCreate (key value : string) : M SparkSession :=
  w ← get;
  match active w with
  | Some spark =>
      let spark := {| conf := set_conf key value (conf spark) |} in
      put {| storage := storage w; views := views w; active := Some spark;
             session_log := session_log w |};;
      mret spark
  | None =>
      let spark := {| conf := [(key, value)] |} in
      put {| storage := storage w; views := views w; active := Some spark;
             session_log := SessionCreated :: session_log w |};;
      mret spark
  end.

(* spark.stop(): the session and its temporary views are gone *)
Definition stop (spark : SparkSession) : M unit :=
  w ← get;
  put {| storage := storage w; views := ∅; active := None;
         session_log := SessionStopped :: session_log w |}.

(* spark.read.schema(ddl).json(path) *)
Definition read_json (spark : SparkSession) (ddl path : string) : M DataFrame :=
  schema ← or_raise ParseException (parse_ddl ddl);
  env ← ask;
  rs ← analysed (json_files env path schema);
  mret {| columns := schema.*1; rows := rs |}.

(* A table written with partition columns and without rows leaves no data
   file under its path: there is nothing to read a schema from. *)
Definition readable (st : Stored) : bool :=
  match partition_by st, rows (table st) with
  | _ :: _, [] => false
  | _, _ => true
  end.

(* spark.read.parquet(path) *)
Definition read_parquet (spark : SparkSession) (path : string) : M DataFrame :=
  w ← get;
  st ← analysed (storage w !! path);
  if readable st then mret (table st) else raise AnalysisException.

(* df.write.mode('overwrite').partitionBy(cols).parquet(path) *)
Definition write_overwrite (partition : list string) (path : string)
    (df : DataFrame) : M unit :=
  analysed (mapM (resolve (df_scope df) None) partition);;
  env ← ask;
  if write_ok env path then
    w ← get;
    put {| storage := <[path := {| partition_by := partition; table := df |}]> (storage w);
           views := views w; active := active w; session_log := session_log w |}
  else raise IOError.

(* df.createOrReplaceTempView(name) *)
Definition createOrReplaceTempView (name : string) (df : DataFrame) : M unit :=
  w ← get;
  put {| storage := storage w; views := <[name := df]> (views w);
         active := active w; session_log := session_log w |}.

(* spark.sql(query) *)
Definition sql (spark : SparkSession) (q : query) : M DataFrame :=
  w ← get;
  tables ← analysed (mapM (λ va : string * string,
                            df ← views w !! va.1; Some (va.2, df)) (q_from q));
  analysed (run_query q tables).

(** ** The job *)

Definition create_spark_session : M SparkSession :=
  getOrCreate "spark.jars.packages" "org.apache.hadoop:hadoop-aws:2.7.0".

Definition process_song_data (spark : SparkSession)
    (input_data output_data : string) : M unit :=
  (* get filepath to song data file *)
  let song_data := input_data +:+ "song_data/*/*/*/*.json" in
  (* read song data file *)
  df ← read_json spark song_schema song_data;
  (* extract columns to create songs table *)
  songs_table ← analysed (select ["song_id"; "title"; "artist_id"; "year"; "duration"] df);
  let songs_table := distinct songs_table in
  (* write songs table to parquet files partitioned by year and artist *)
  write_overwrite ["year"; "artist_id"]
    (output_data +:+ "dimensions.parquet/songs") songs_table;;
  (* extract columns to create artists table *)
  artists_table ← analysed (selectExpr [Col "artist_id";
                                        Alias (Col "artist_name") "name";
                                        Alias (Col "artist_location") "location";
                                        Alias (Col "artist_latitude") "latitude";
                                        Alias (Col "artist_longitude") "longitude"] df);
  let artists_table := distinct artists_table in
  (* write artists table to parquet files *)
  write_overwrite [] (output_data +:+ "dimensions.parquet/artists") artists_table.

Definition songplays_query : query :=
  {| q_distinct := true;
     q_select := [Col "event_ts";
                  Alias (Call "year" (Col "event_ts")) "year";
                  Alias (Call "month" (Col "event_ts")) "month";
                  Col "user_id";
                  Col "level";
                  Col "session_id";
                  Qual "ev" "location";
                  Col "user_agent";
                  Qual "s" "song_id";
                  Qual "a" "artist_id"];
     q_from := [("events", "ev"); ("song", "s"); ("artist", "a")];
     q_where := CAnd (CEq (Qual "ev" "song") (Qual "s" "title"))
                     (CEq (Qual "ev" "artist") (Qual "a" "name")) |}.

Definition process_log_data (spark : SparkSession)
    (input_data output_data : string) : M unit :=
  (* get filepath to log data file *)
  let log_data := input_data +:+ "log_data/*/*/*-events.json" in
  (* read log data file *)
  df ← read_json spark event_schema log_data;
  (* filter by actions for song plays *)
  df ← analysed (filter_where (CAnd (CEq (Col "page") (LitStr "NextSong"))
                                    (CEq (Col "status") (LitInt 200))) df);
  (* extract columns for users table *)
  users_table ← analysed (select ["user_id"; "first_name"; "last_name"; "gender"; "level"] df);
  let users_table := distinct users_table in
  (* write users table to parquet files *)
  write_overwrite [] (output_data +:+ "dimensions.parquet/users") users_table;;
  (* create timestamp column from original timestamp column *)
  df ← analysed (withColumn "event_ts" (CastTimestamp (Div (Col "ts") (LitInt 1000))) df);
  (* extract columns to create time table *)
  time_table ← analysed (selectExpr [Alias (Col "event_ts") "start_time";
                                     Alias (Call "hour" (Col "event_ts")) "hour";
                                     Alias (Call "day" (Col "event_ts")) "day";
                                     Alias (Call "weekofyear" (Col "event_ts")) "week";
                                     Alias (Call "month" (Col "event_ts")) "month";
                                     Alias (Call "year" (Col "event_ts")) "year";
                                     Alias (Call "dayofweek" (Col "event_ts")) "weekday"] df);
  let time_table := distinct time_table in
  (* write time table to parquet files partitioned by year and month *)
  write_overwrite ["year"; "month"]
    (output_data +:+ "dimensions.parquet/time") time_table;;
  (* read in song data to use for songplays table *)
  song_df ← read_parquet spark (output_data +:+ "dimensions.parquet/songs");
  (* read in artist data to use for songplays table *)
  artist_df ← read_parquet spark (output_data +:+ "dimensions.parquet/artists");
  (* create SQL table views over the song and artist data frames *)
  createOrReplaceTempView "song" song_df;;
  createOrReplaceTempView "artist" artist_df;;
  createOrReplaceTempView "events" df;;
  (* extract columns from joined song and log datasets to create songplays table *)
  songplays_table ← sql spark songplays_query;
  (* write songplays table to parquet files partitioned by year and month *)
  write_overwrite ["year"; "month"]
    (output_data +:+ "facts.parquet/songplays") songplays_table.

Definition main : M unit :=
  spark ← create_spark_session;
  let input_data := "s3a://udacity-dend/" in
  let output_data := "s3n://data-lake-cluster/" in
  process_song_data spark input_data output_data;;
  process_log_data spark input_data output_data;;
  stop spark.

(** ** What the job writes, table by table

    The rows of each output table as a function of the input rows, in the
    words of the data model: used to state and prove the properties of
    the job, and proved equal to what the job computes. *)

Definition song_fields : list (string * sql_type) :=
  Eval vm_compute in default [] (parse_ddl song_schema).

Definition event_fields : list (string * sql_type) :=
  Eval vm_compute in default [] (parse_ddl event_schema).

Definition song_columns : list string := Eval vm_compute in song_fields.*1.
Definition event_columns : list string := Eval vm_compute in event_fields.*1.

Definition songs_columns : list string :=
  ["song_id"; "title"; "artist_id"; "year"; "duration"].
Definition artists_columns : list string :=
  ["artist_id"; "name"; "location"; "latitude"; "longitude"].
Definition users_columns : list string :=
  ["user_id"; "first_name"; "last_name"; "gender"; "level"].
Definition time_columns : list string :=
  ["start_time"; "hour"; "day"; "week"; "month"; "year"; "weekday"].

Definition songplays_columns : list string :=
  ["event_ts"; "year"; "month"; "user_id"; "level"; "session_id"; "location";
   "user_agent"; "song_id"; "artist_id"].

Definition song_row (r : row) : row :=
  (λ c, field song_columns c r) <$> songs_columns.

Definition artist_row (r : row) : row :=
  (λ c, field song_columns c r)
    <$> ["artist_id"; "artist_name"; "artist_location"; "artist_latitude"; "artist_longitude"].

(* an actual song play: page = 'NextSong' AND status = 200 *)
Definition is_song_play (e : row) : Prop :=
  field event_columns "page" e = VStr "NextSong"
  ∧ field event_columns "status" e = VInt 200.

#[global] Instance is_song_play_dec e : Decision (is_song_play e).
Proof. unfold is_song_play. apply _. Defined.

Definition user_row (e : row) : row :=
  (λ c, field event_columns c e) <$> users_columns.

(* timestamp(ts / 1000) *)
Definition event_ts (e : row) : value :=
  sql_cast_timestamp (sql_div (field event_columns "ts" e) (VInt 1000)).

(* timestamp(T / 1000) for a LONG [T]: the quotient as a double, read as seconds *)
Definition timestamp_of_millis (T : Z) : value :=
  match double_div (to_double T) (to_double 1000) with
  | Some d =>
      match double_to_timestamp d with
      | Some t => VTs t
      | None => VNull
      end
  | None => VNull
  end.

Definition time_row (e : row) : row :=
  let t := event_ts e in
  [t; on_timestamp hour t; on_timestamp day t; on_timestamp weekofyear t;
   on_timestamp month t; on_timestamp year t; on_timestamp dayofweek t].

(* the event row once [event_ts] is added as its last column *)
Definition with_event_ts (e : row) : row :=
  (fit (length event_columns) e ++ [event_ts e])%list.

(* ev.song = s.title AND ev.artist = a.name, on an event and two catalog rows *)
Definition matches (e s a : row) : Prop :=
  sql_eq (field event_columns "song" e) (field songs_columns "title" s) = Some true
  ∧ sql_eq (field event_columns "artist" e) (field artists_columns "name" a) = Some true.

#[global] Instance matches_dec e s a : Decision (matches e s a).
Proof. unfold matches. apply _. Defined.

(* the fact row of an event, a Song row and an Artist row *)
Definition songplay_row (e s a : row) : row :=
  [event_ts e; on_timestamp year (event_ts e); on_timestamp month (event_ts e);
   field event_columns "user_id" e; field event_columns "level" e;
   field event_columns "session_id" e; field event_columns "location" e;
   field event_columns "user_agent" e;
   field songs_columns "song_id" s; field artists_columns "artist_id" a].

Definition songs_table_of (rs : list row) : DataFrame :=
  {| columns := songs_columns; rows := remove_dups (song_row <$> rs) |}.

Definition artists_table_of (rs : list row) : DataFrame :=
  {| columns := artists_columns; rows := remove_dups (artist_row <$> rs) |}.

Definition users_table_of (evs : list row) : DataFrame :=
  {| columns := users_columns; rows := remove_dups (user_row <$> filter is_song_play evs) |}.

Definition time_table_of (evs : list row) : DataFrame :=
  {| columns := time_columns; rows := remove_dups (time_row <$> filter is_song_play evs) |}.

(* the join of the song plays with the rows [S] of songs and [A] of artists *)
Definition songplays_table_of (evs S A : list row) : DataFrame :=
  {| columns := songplays_columns;
     rows := remove_dups
               (e ← filter is_song_play evs; s ← S; a ← A;
                if decide (matches e s a) then [songplay_row e s a] else []) |}.

Definition stored_songs (rs : list row) : Stored :=
  {| partition_by := ["year"; "artist_id"]; table := songs_table_of rs |}.
Definition stored_artists (rs : list row) : Stored :=
  {| partition_by := []; table := artists_table_of rs |}.
Definition stored_users (evs : list row) : Stored :=
  {| partition_by := []; table := users_table_of evs |}.
Definition stored_time (evs : list row) : Stored :=
  {| partition_by := ["year"; "month"]; table := time_table_of evs |}.
Definition stored_songplays (evs S A : list row) : Stored :=
  {| partition_by := ["year"; "month"]; table := songplays_table_of evs S A |}.

(** ** The writes of a run

    A run is a sequence of overwrites, with the read-back of the songs and
    artists tables before the last one; it stops at the first failure, of
    a write or of the read-back.
    [attempt] gives the outcome of a sequence of writes and the writes
    that were made. *)

Definition write_all (ws : list (string * Stored)) (s : gmap string Stored) :
    gmap string Stored :=
  foldl (λ m kv, <[kv.1 := kv.2]> m) s ws.

Fixpoint attempt (env : Env) (ws : list (string * Stored)) :
    outcome unit * list (string * Stored) :=
  match ws with
  | [] => (Ok tt, [])
  | (path, t) :: ws' =>
      if write_ok env path
      then let r := attempt env ws' in (r.1, (path, t) :: r.2)
      else (Raised IOError, [])
  end.

Definition song_plan (i o : string) (env : Env) : outcome unit * list (string * Stored) :=
  match json_files env (i +:+ "song_data/*/*/*/*.json") song_fields with
  | None => (Raised AnalysisException, [])
  | Some rs =>
      attempt env [(o +:+ "dimensions.parquet/songs", stored_songs rs);
                   (o +:+ "dimensions.parquet/artists", stored_artists rs)]
  end.

(* the log pipeline, on a store that holds [songs] and [artists] *)
Definition log_plan (i o : string) (songs artists : Stored) (env : Env) :
    outcome unit * list (string * Stored) :=
  match json_files env (i +:+ "log_data/*/*/*-events.json") event_fields with
  | None => (Raised AnalysisException, [])
  | Some evs =>
      match attempt env [(o +:+ "dimensions.parquet/users", stored_users evs);
                         (o +:+ "dimensions.parquet/time", stored_time evs)] with
      | (Ok _, ws) =>
          if readable songs && readable artists then
            let r := attempt env
                       [(o +:+ "facts.parquet/songplays",
                         stored_songplays evs (rows (table songs)) (rows (table artists)))] in
            (r.1, (ws ++ r.2)%list)
          else (Raised AnalysisException, ws)
      | (Raised e, ws) => (Raised e, ws)
      end
  end.

Definition main_plan (env : Env) : outcome unit * list (string * Stored) :=
  let i := "s3a://udacity-dend/" in
  let o := "s3n://data-lake-cluster/" in
  match json_files env (i +:+ "song_data/*/*/*/*.json") song_fields with
  | None => (Raised AnalysisException, [])
  | Some rs =>
      match attempt env [(o +:+ "dimensions.parquet/songs", stored_songs rs);
                         (o +:+ "dimensions.parquet/artists", stored_artists rs)] with
      | (Ok _, ws) =>
          let r := log_plan i o (stored_songs rs) (stored_artists rs) env in
          (r.1, (ws ++ r.2)%list)
      | (Raised e, ws) => (Raised e, ws)
      end
  end.

(* the view [events]: the song plays with their [event_ts] *)
Definition events_view (evs : list row) : DataFrame :=
  {| columns := (event_columns ++ ["event_ts"])%list;
     rows := with_event_ts <$> filter is_song_play evs |}.

(** ** Worlds and environments, for the statements *)

Definition set_storage (s : gmap string Stored) (w : World) : World :=
  {| storage := s; views := views w; active := active w; session_log := session_log w |}.

Definition set_views (v : gmap string DataFrame) (w : World) : World :=
  {| storage := storage w; views := v; active := active w; session_log := session_log w |}.

(* the world once [create_spark_session] has returned *)
Definition started (w : World) : World :=
  match active w with
  | Some spark =>
      {| storage := storage w; views := views w;
         active := Some {| conf := set_conf "spark.jars.packages"
                                     "org.apache.hadoop:hadoop-aws:2.7.0" (conf spark) |};
         session_log := session_log w |}
  | None =>
      {| storage := storage w; views := views w;
         active := Some {| conf := [("spark.jars.packages",
                                     "org.apache.hadoop:hadoop-aws:2.7.0")] |};
         session_log := SessionCreated :: session_log w |}
  end.

(* the world once [stop] has returned *)
Definition stopped (w : World) : World :=
  {| storage := storage w; views := ∅; active := None;
     session_log := SessionStopped :: session_log w |}.

(* how the driver leaves the world, by the outcome of the pipelines *)
Definition finish (r : outcome unit) (w : World) : World :=
  match r with
  | Ok _ => stopped w
  | Raised _ => w
  end.

(* the environment in which the files under [path] hold the rows [rs] *)
Definition with_json (path : string) (rs : list row) (env : Env) : Env :=
  {| json_files := λ p schema, if String.eqb p path then Some rs else json_files env p schema;
     write_ok := write_ok env |}.

(* how many times a session was stopped *)
Definition stops (w : World) : nat :=
  length (filter (λ ev, ev = SessionStopped) (session_log w)).

Definition song_data_path : string := "s3a://udacity-dend/song_data/*/*/*/*.json".
Definition log_data_path : string := "s3a://udacity-dend/log_data/*/*/*-events.json".
Definition songs_path : string := "s3n://data-lake-cluster/dimensions.parquet/songs".
Definition artists_path : string := "s3n://data-lake-cluster/dimensions.parquet/artists".
Definition users_path : string := "s3n://data-lake-cluster/dimensions.parquet/users".
Definition time_path : string := "s3n://data-lake-cluster/dimensions.parquet/time".
Definition songplays_path : string := "s3n://data-lake-cluster/facts.parquet/songplays".

End Model.

#[global] Arguments value : clear implicits.
#[global] Arguments row : clear implicits.
#[global] Arguments DataFrame : clear implicits.
#[global] Arguments Stored : clear implicits.
#[global] Arguments Env : clear implicits.
#[global] Arguments World : clear implicits.
#[global] Arguments M : clear implicits.

(** ** A reference engine: binary64 doubles, timestamps in microseconds, UTC *)

Module Reference.

Definition b64_of_Z (z : Z) : spec_float := binary_normalize 53 1024 z 0 false.

Definition b64_div (x y : spec_float) : option spec_float :=
  match y with
  | S754_zero _ => None
  | _ => Some (SFdiv 53 1024 x y)
  end.

(* the integer part, towards zero *)
Definition b64_trunc (x : spec_float) : option Z :=
  match x with
  | S754_zero _ => Some 0
  | S754_finite s m e =>
      let a := if 0 <=? e then Z.pos m * 2 ^ e else Z.pos m / 2 ^ (- e) in
      Some (if s then - a else a)
  | _ => None
  end.

Definition clamp_long (z : Z) : Z := Z.max (- 2 ^ 63) (Z.min (2 ^ 63 - 1) z).

(* seconds to microseconds: multiply as doubles, then truncate to a LONG *)
Definition b64_to_micros (x : spec_float) : option Z :=
  clamp_long <$> b64_trunc (SFmul 53 1024 x (b64_of_Z 1000000)).

Definition epoch_day (us : Z) : Z := us / 1000000 / 86400.

Definition utc_hour (us : Z) : Z := (us / 1000000) mod 86400 / 3600.

(* (year, month, day) of a day number, proleptic Gregorian *)
Definition civil_of_day (n : Z) : Z * Z * Z :=
  let z := n + 719468 in
  let era := z / 146097 in
  let doe := z - era * 146097 in
  let yoe := (doe - doe / 1460 + doe / 36524 - doe / 146096) / 365 in
  let doy := doe - (365 * yoe + yoe / 4 - yoe / 100) in
  let mp := (5 * doy + 2) / 153 in
  let d := doy - (153 * mp + 2) / 5 + 1 in
  let m := if mp <? 10 then mp + 3 else mp - 9 in
  (yoe + era * 400 + (if m <=? 2 then 1 else 0), m, d).

Definition day_of_civil (y m d : Z) : Z :=
  let y' := if m <=? 2 then y - 1 else y in
  let era := y' / 400 in
  let yoe := y' - era * 400 in
  let doy := (153 * (if 2 <? m then m - 3 else m + 9) + 2) / 5 + d - 1 in
  era * 146097 + (yoe * 365 + yoe / 4 - yoe / 100 + doy) - 719468.

Definition utc_year (us : Z) : Z := (civil_of_day (epoch_day us)).1.1.
Definition utc_month (us : Z) : Z := (civil_of_day (epoch_day us)).1.2.
Definition utc_day (us : Z) : Z := (civil_of_day (epoch_day us)).2.

(* Sunday is 1, Saturday is 7; day 0 was a Thursday *)
Definition utc_dayofweek (us : Z) : Z := (epoch_day us + 4) mod 7 + 1.

(* ISO 8601: the week of the Thursday of the same Monday-to-Sunday week *)
Definition utc_weekofyear (us : Z) : Z :=
  let n := epoch_day us in
  let thursday := n - (n + 3) mod 7 + 3 in
  let y := (civil_of_day thursday).1.1 in
  (thursday - day_of_civil y 1 1) / 7 + 1.

#[global] Instance spec_float_eq_dec : EqDecision spec_float.
Proof. solve_decision. Defined.

#[global] Instance engine : Engine spec_float Z := {|
  to_double := b64_of_Z;
  double_div := b64_div;
  double_to_timestamp := b64_to_micros;
  hour := utc_hour;
  day := utc_day;
  weekofyear := utc_weekofyear;
  month := utc_month;
  year := utc_year;
  dayofweek := utc_dayofweek
|}.

(** ** Example runs *)

Definition empty_world : World spec_float Z :=
  {| storage := ∅; views := ∅; active := None; session_log := [] |}.

(* the files hold [songs] and [events]; every write is accepted *)
Definition files (songs events : list (row spec_float Z)) : Env spec_float Z :=
  {| json_files := λ path _,
       if String.eqb path song_data_path then Some songs
       else if String.eqb path log_data_path then Some events
       else None;
     write_ok := λ _, true |}.

(* no input file matches *)
Definition no_files : Env spec_float Z :=
  {| json_files := λ _ _, None; write_ok := λ _, true |}.

Definition song_hello : row spec_float Z :=
  row_of song_columns
    [("song_id", VStr "S1"); ("title", VStr "Hello"); ("artist_id", VStr "A1");
     ("artist_name", VStr "Adele"); ("year", VInt 2015);
     ("duration", VDbl (b64_of_Z 295))].

(* another song of the same title, by another artist *)
Definition song_hello_again : row spec_float Z :=
  row_of song_columns
    [("song_id", VStr "S2"); ("title", VStr "Hello"); ("artist_id", VStr "A2");
     ("artist_name", VStr "Lionel Richie"); ("year", VInt 1984)].

(* a catalog record without title *)
Definition song_untitled : row spec_float Z :=
  row_of song_columns
    [("song_id", VStr "S3"); ("artist_id", VStr "A3"); ("year", VInt 0)].

Definition play_hello : row spec_float Z :=
  row_of event_columns
    [("artist", VStr "Adele"); ("song", VStr "Hello"); ("status", VInt 200);
     ("page", VStr "NextSong"); ("ts", VInt 1500000000000); ("user_id", VInt 7);
     ("level", VStr "paid"); ("session_id", VInt 42); ("location", VStr "NYC");
     ("user_agent", VStr "UA1")].

Definition page_view : row spec_float Z :=
  row_of event_columns
    [("status", VInt 200); ("page", VStr "PageView"); ("ts", VInt 1500000001000);
     ("user_id", VInt 8); ("level", VStr "free"); ("session_id", VInt 43)].

(* a song play whose song and artist are null *)
Definition play_unknown : row spec_float Z :=
  row_of event_columns
    [("status", VInt 200); ("page", VStr "NextSong"); ("ts", VInt 1500000002000);
     ("user_id", VInt 9); ("level", VStr "free"); ("session_id", VInt 44)].

(* one catalog record and one play of it *)
Definition scenario : Env spec_float Z := files [song_hello] [play_hello].

(* two songs of one title, one play *)
Definition two_hellos : Env spec_float Z :=
  files [song_hello; song_hello_again] [play_hello].

(* the catalog record twice, and the play twice *)
Definition repeats : Env spec_float Z :=
  files [song_hello; song_hello] [play_hello; play_hello].

(* a catalog with an untitled record *)
Definition with_untitled : Env spec_float Z :=
  files [song_hello; song_untitled] [].

(* the same user again, later, at the free level *)
Definition play_hello_free : row spec_float Z :=
  row_of event_columns
    [("artist", VStr "Adele"); ("song", VStr "Hello"); ("status", VInt 200);
     ("page", VStr "NextSong"); ("ts", VInt 1500000003000); ("user_id", VInt 7);
     ("level", VStr "free"); ("session_id", VInt 45); ("location", VStr "NYC");
     ("user_agent", VStr "UA1")].

(* a play of a song that is not in the catalog *)
Definition play_other : row spec_float Z :=
  row_of event_columns
    [("artist", VStr "Adele"); ("song", VStr "Someone Like You"); ("status", VInt 200);
     ("page", VStr "NextSong"); ("ts", VInt 1500000004000); ("user_id", VInt 7);
     ("level", VStr "paid"); ("session_id", VInt 42)].

(* the environment [env] with the writes at [path] refused *)
Definition refusing (path : string) (env : Env spec_float Z) : Env spec_float Z :=
  {| json_files := json_files env;
     write_ok := λ p, negb (String.eqb p path) && write_ok env p |}.

Definition a_session : SparkSession :=
  {| conf := [("spark.jars.packages", "org.apache.hadoop:hadoop-aws:2.7.0")] |}.

(* the one-play input: the world after the song pipeline, then after the
   log pipeline *)
Definition after_song_pipeline : World spec_float Z :=
  (process_song_data a_session "s3a://udacity-dend/" "s3n://data-lake-cluster/"
     scenario empty_world).2.

Definition after_log_pipeline : World spec_float Z :=
  (process_log_data a_session "s3a://udacity-dend/" "s3n://data-lake-cluster/"
     scenario after_song_pipeline).2.

End Reference.

(** * Properties *)

Section Properties.
Context {double timestamp : Type}.
Context `{!EqDecision double, !EqDecision timestamp, !Engine double timestamp}.

Local Notation "'value'" := (value double timestamp) (only parsing).
Local Notation "'row'" := (row double timestamp) (only parsing).
Local Notation "'DataFrame'" := (DataFrame double timestamp) (only parsing).
Local Notation "'Stored'" := (Stored double timestamp) (only parsing).
Local Notation "'Env'" := (Env double timestamp) (only parsing).
Local Notation "'World'" := (World double timestamp) (only parsing).
Local Notation "'M'" := (M double timestamp) (only parsing).

(** ** Running the monad, one call at a time *)

Lemma bind_run {A B} (c : M A) (k : A → M B) (env : Env) (w : World) :
  (c ≫= k) env w =
  match c env w with
  | (Ok a, w') => k a env w'
  | (Raised e, w') => (Raised e, w')
  end.
Proof. reflexivity. Qed.

Lemma analysed_run {A} (o : option A) (env : Env) (w : World) :
  analysed o env w =
  match o with
  | Some a => (Ok a, w)
  | None => (Raised AnalysisException, w)
  end.
Proof. by destruct o. Qed.

Lemma read_json_run spark ddl path (env : Env) (w : World) sch :
  parse_ddl ddl = Some sch →
  read_json spark ddl path env w =
  match json_files env path sch with
  | Some rs => (Ok {| columns := sch.*1; rows := rs |}, w)
  | None => (Raised AnalysisException, w)
  end.
Proof.
  intros Hp. unfold read_json. rewrite Hp.
  cbv [or_raise mbind M_bind mret M_ret ask analysed raise].
  by destruct (json_files env path sch).
Qed.

Lemma read_parquet_run spark path (env : Env) (w : World) :
  read_parquet spark path env w =
  match storage w !! path with
  | Some st => if readable st then (Ok (table st), w) else (Raised AnalysisException, w)
  | None => (Raised AnalysisException, w)
  end.
Proof.
  unfold read_parquet.
  cbv [or_raise mbind M_bind mret M_ret get analysed raise].
  destruct (storage w !! path) as [st|]; [|done]. by destruct (readable st).
Qed.

Lemma write_overwrite_run part path (df : DataFrame) (env : Env) (w : World) :
  is_Some (mapM (resolve (df_scope df) None) part) →
  write_overwrite part path df env w =
  if write_ok env path
  then (Ok tt, set_storage (<[path := {| partition_by := part; table := df |}]> (storage w)) w)
  else (Raised IOError, w).
Proof.
  intros [ps Hp]. unfold write_overwrite. rewrite Hp.
  cbv [or_raise mbind M_bind mret M_ret ask analysed raise get put].
  by destruct (write_ok env path).
Qed.

Lemma createOrReplaceTempView_run name (df : DataFrame) (env : Env) (w : World) :
  createOrReplaceTempView name df env w = (Ok tt, set_views (<[name := df]> (views w)) w).
Proof. reflexivity. Qed.

Lemma sql_run spark q (env : Env) (w : World) tables (df : DataFrame) :
  mapM (λ va : string * string, df ← views w !! va.1; Some (va.2, df)) (q_from q)
    = Some tables →
  run_query q tables = Some df →
  sql spark q env w = (Ok df, w).
Proof.
  intros Ht Hq. unfold sql.
  rewrite bind_run. unfold get at 1. cbv beta iota.
  by rewrite bind_run, !analysed_run, Ht, Hq.
Qed.

(** ** The engine calls of the two pipelines, on the columns they meet *)

Lemma parse_song_schema : parse_ddl song_schema = Some song_fields.
Proof. vm_compute. reflexivity. Qed.

Lemma parse_event_schema : parse_ddl event_schema = Some event_fields.
Proof. vm_compute. reflexivity. Qed.

Lemma select_songs (rs : list row) :
  select ["song_id"; "title"; "artist_id"; "year"; "duration"]
    {| columns := song_fields.*1; rows := rs |}
  = Some {| columns := songs_columns; rows := song_row <$> rs |}.
Proof. reflexivity. Qed.

Lemma selectExpr_artists (rs : list row) :
  selectExpr [Col "artist_id";
              Alias (Col "artist_name") "name";
              Alias (Col "artist_location") "location";
              Alias (Col "artist_latitude") "latitude";
              Alias (Col "artist_longitude") "longitude"]
    {| columns := song_fields.*1; rows := rs |}
  = Some {| columns := artists_columns; rows := artist_row <$> rs |}.
Proof. reflexivity. Qed.

Lemma sql_eq_true (a b : value) : sql_eq a b = Some true ↔ a = b ∧ a ≠ VNull.
Proof.
  destruct a, b; simpl;
    (split;
     [ try done; intros [= Hd]; apply bool_decide_eq_true_1 in Hd; done
     | intros [Hab Hn]; try done; by rewrite bool_decide_eq_true_2 ]).
Qed.

Lemma sql_and_true (p q : option bool) :
  sql_and p q = Some true ↔ p = Some true ∧ q = Some true.
Proof. destruct p as [[]|], q as [[]|]; simpl; naive_solver. Qed.

Lemma filter_song_plays (evs : list row) :
  filter_where (CAnd (CEq (Col "page") (LitStr "NextSong"))
                     (CEq (Col "status") (LitInt 200)))
    {| columns := event_fields.*1; rows := evs |}
  = Some {| columns := event_columns; rows := filter is_song_play evs |}.
Proof.
  unfold filter_where. cbn -[sql_eq sql_and]. do 2 f_equal.
  apply list_filter_iff. intros e.
  rewrite sql_and_true, !sql_eq_true.
  change (nth 10 e VNull) with (field event_columns "page" e).
  change (nth 14 e VNull) with (field event_columns "status" e).
  unfold is_song_play.
  split; [intros [[? _] [? _]]; done | intros [-> ->]; done].
Qed.

Lemma select_users (l : list row) :
  select ["user_id"; "first_name"; "last_name"; "gender"; "level"]
    {| columns := event_columns; rows := l |}
  = Some {| columns := users_columns; rows := user_row <$> l |}.
Proof. reflexivity. Qed.

Lemma withColumn_event_ts (l : list row) :
  withColumn "event_ts" (CastTimestamp (Div (Col "ts") (LitInt 1000)))
    {| columns := event_columns; rows := l |}
  = Some {| columns := (event_columns ++ ["event_ts"])%list; rows := with_event_ts <$> l |}.
Proof. reflexivity. Qed.

Lemma length_fit n (r : row) : length (fit n r) = n.
Proof. unfold fit. rewrite length_take, length_app, length_replicate. lia. Qed.

Lemma nth_fit n i (r : row) : (i < n)%nat → nth i (fit n r) VNull = nth i r VNull.
Proof.
  intros Hi. unfold fit. rewrite !nth_lookup, lookup_take_lt by done.
  destruct (decide (i < length r)%nat) as [Hl|Hl].
  - by rewrite lookup_app_l.
  - rewrite lookup_app_r by lia.
    rewrite lookup_replicate_2 by lia.
    by rewrite (lookup_ge_None_2 r i) by lia.
Qed.

(* the cells of an event row are where they were once [event_ts] is added *)
Lemma nth_with_event_ts i (e : row) :
  (i < 18)%nat → nth i (with_event_ts e) VNull = nth i e VNull.
Proof.
  intros Hi. unfold with_event_ts.
  rewrite app_nth1 by (rewrite length_fit; exact Hi).
  by apply nth_fit.
Qed.

Lemma nth_event_ts (e : row) : nth 18 (with_event_ts e) VNull = event_ts e.
Proof.
  unfold with_event_ts.
  rewrite app_nth2 by (rewrite length_fit; cbn; lia).
  by rewrite length_fit.
Qed.

Lemma selectExpr_time (l : list row) :
  selectExpr [Alias (Col "event_ts") "start_time";
              Alias (Call "hour" (Col "event_ts")) "hour";
              Alias (Call "day" (Col "event_ts")) "day";
              Alias (Call "weekofyear" (Col "event_ts")) "week";
              Alias (Call "month" (Col "event_ts")) "month";
              Alias (Call "year" (Col "event_ts")) "year";
              Alias (Call "dayofweek" (Col "event_ts")) "weekday"]
    {| columns := (event_columns ++ ["event_ts"])%list; rows := with_event_ts <$> l |}
  = Some {| columns := time_columns; rows := time_row <$> l |}.
Proof.
  unfold selectExpr. cbn -[with_event_ts on_timestamp]. do 2 f_equal.
  rewrite <- list_fmap_compose. apply list_fmap_ext. intros _ e _. cbn -[with_event_ts on_timestamp].
  rewrite nth_event_ts. reflexivity.
Qed.

(** ** The join as a comprehension *)

Lemma cross_cons_row (r : row) (t : list row) (ts : list (list row)) :
  cross ((r :: t) :: ts) = ((cons r <$> cross ts) ++ cross (t :: ts))%list.
Proof. reflexivity. Qed.

Section Comprehension.
Context {B : Type} (proj : list row → B) (P : list row → Prop) `{!∀ x, Decision (P x)}.
Context (g : row → row) (f : row → row → row → list B).
Hypothesis pick : ∀ e s a,
  (if decide (P [g e; s; a]) then [proj [g e; s; a]] else []) = f e s a.

Lemma join_one (e s : row) (A : list row) :
  proj <$> filter P (cons (g e) <$> (cons s <$> cross [A])) = a ← A; f e s a.
Proof using pick.
  induction A as [|a A IH]; [done|].
  rewrite cross_cons_row, !fmap_app, filter_app, fmap_app, IH.
  cbn [cross fmap list_fmap app]. rewrite filter_cons, filter_nil.
  cbn [mbind list_bind]. rewrite <- pick. by destruct (decide (P _)).
Qed.

Lemma join_two (e : row) (S A : list row) :
  proj <$> filter P (cons (g e) <$> cross [S; A]) = s ← S; a ← A; f e s a.
Proof using pick.
  induction S as [|s S IH]; [done|].
  rewrite cross_cons_row, !fmap_app, filter_app, fmap_app, IH.
  cbn [mbind list_bind]. by rewrite join_one.
Qed.

Lemma join_three (E S A : list row) :
  proj <$> filter P (cross [g <$> E; S; A]) = e ← E; s ← S; a ← A; f e s a.
Proof using pick.
  induction E as [|e E IH]; [done|].
  rewrite fmap_cons, cross_cons_row, filter_app, fmap_app, IH.
  cbn [mbind list_bind]. by rewrite join_two.
Qed.
End Comprehension.

Lemma run_songplays_query (E S A : list row) :
  run_query songplays_query
    [("ev", {| columns := (event_columns ++ ["event_ts"])%list; rows := with_event_ts <$> E |});
     ("s", {| columns := songs_columns; rows := S |});
     ("a", {| columns := artists_columns; rows := A |})]
  = Some {| columns := songplays_columns;
            rows := remove_dups
                      (e ← E; s ← S; a ← A;
                       if decide (matches e s a) then [songplay_row e s a] else []) |}.
Proof.
  unfold run_query. cbn -[with_event_ts on_timestamp sql_eq sql_and cross].
  do 3 f_equal.
  apply (join_three _ _ with_event_ts
           (λ e s a, if decide (matches e s a) then [songplay_row e s a] else [])).
  intros e s a. cbn -[with_event_ts on_timestamp sql_eq sql_and].
  rewrite nth_event_ts, !nth_with_event_ts by lia.
  assert (sql_and (sql_eq (nth 13 e VNull) (nth 1 s VNull))
                  (sql_eq (nth 0 e VNull) (nth 1 a VNull)) = Some true
          ↔ matches e s a) as Hm.
  { rewrite sql_and_true. reflexivity. }
  destruct (decide (sql_and _ _ = _)) as [Hp|Hp], (decide (matches e s a)) as [Hq|Hq];
    try done; by (apply Hm in Hp || apply Hm in Hq).
Qed.

(** ** The two pipelines and the driver, run *)

Lemma append_inj_l (o a b : string) : o +:+ a = o +:+ b → a = b.
Proof. induction o as [|c o IH]; simpl; [done|]. intros [= Heq]. by apply IH. Qed.

Lemma process_song_data_run spark i o (env : Env) (w : World) :
  process_song_data spark i o env w
  = ((song_plan i o env).1,
     set_storage (write_all (song_plan i o env).2 (storage w)) w).
Proof.
  unfold process_song_data, song_plan. cbv zeta.
  rewrite bind_run, (read_json_run _ _ _ _ _ _ parse_song_schema).
  destruct (json_files env _ song_fields) as [rs|]; [|by destruct w].
  rewrite bind_run, analysed_run, select_songs. cbv beta iota.
  rewrite bind_run, write_overwrite_run by (by eexists).
  unfold attempt.
  destruct (write_ok env (o +:+ "dimensions.parquet/songs")); [|by destruct w].
  cbv beta iota.
  rewrite bind_run, analysed_run, selectExpr_artists. cbv beta iota.
  rewrite write_overwrite_run by (by eexists).
  destruct (write_ok env (o +:+ "dimensions.parquet/artists")); by destruct w.
Qed.

Lemma process_log_data_run spark i o (env : Env) (w : World) ps1 ps2 S A :
  let songs := {| partition_by := ps1;
                  table := {| columns := songs_columns; rows := S |} |} in
  let artists := {| partition_by := ps2;
                    table := {| columns := artists_columns; rows := A |} |} in
  storage w !! (o +:+ "dimensions.parquet/songs") = Some songs →
  storage w !! (o +:+ "dimensions.parquet/artists") = Some artists →
  ∃ v, process_log_data spark i o env w
       = ((log_plan i o songs artists env).1,
          set_views v
            (set_storage (write_all (log_plan i o songs artists env).2 (storage w)) w)).
Proof.
  intros songs artists Hs Ha.
  unfold process_log_data, log_plan. cbv zeta.
  rewrite bind_run, (read_json_run _ _ _ _ _ _ parse_event_schema).
  destruct (json_files env _ event_fields) as [evs|];
    [|exists (views w); by destruct w].
  rewrite bind_run, analysed_run, filter_song_plays. cbv beta iota.
  rewrite bind_run, analysed_run, select_users. cbv beta iota.
  rewrite bind_run, write_overwrite_run by (by eexists).
  cbn [attempt].
  destruct (write_ok env (o +:+ "dimensions.parquet/users"));
    [|exists (views w); by destruct w].
  cbv beta iota.
  rewrite bind_run, analysed_run, withColumn_event_ts. cbv beta iota.
  rewrite bind_run, analysed_run, selectExpr_time. cbv beta iota.
  rewrite bind_run, write_overwrite_run by (by eexists).
  destruct (write_ok env (o +:+ "dimensions.parquet/time"));
    [|exists (views w); by destruct w].
  cbv beta iota.
  rewrite bind_run, read_parquet_run. cbn [storage set_storage].
  rewrite !lookup_insert_ne, Hs by (intros ?%append_inj_l; done).
  destruct (readable songs) eqn:Hrs; [|exists (views w); by destruct w].
  cbv beta iota.
  rewrite bind_run, read_parquet_run. cbn [storage set_storage].
  rewrite !lookup_insert_ne, Ha by (intros ?%append_inj_l; done).
  destruct (readable artists) eqn:Hra; [|exists (views w); by destruct w].
  cbv beta iota. cbn [table songs artists andb fst snd].
  rewrite bind_run, createOrReplaceTempView_run.
  rewrite bind_run, createOrReplaceTempView_run.
  rewrite bind_run, createOrReplaceTempView_run.
  rewrite bind_run.
  erewrite sql_run; [| |apply run_songplays_query].
  2:{ cbn [q_from songplays_query mapM fst snd views set_views].
      repeat (rewrite lookup_insert_eq || rewrite lookup_insert_ne by done).
      reflexivity. }
  rewrite write_overwrite_run by (by eexists).
  destruct (write_ok env (o +:+ "facts.parquet/songplays"));
    eexists; destruct w; reflexivity.
Qed.

Lemma create_spark_session_run (env : Env) (w : World) :
  ∃ spark, create_spark_session env w = (Ok spark, started w).
Proof.
  unfold create_spark_session, getOrCreate, started.
  rewrite bind_run. unfold get at 1. cbv beta iota.
  destruct (active w) as [spark|]; by eexists.
Qed.

Lemma stop_run spark (env : Env) (w : World) : stop spark env w = (Ok tt, stopped w).
Proof. reflexivity. Qed.

Lemma write_all_app (ws1 ws2 : list (string * Stored)) s :
  write_all (ws1 ++ ws2) s = write_all ws2 (write_all ws1 s).
Proof. apply foldl_app. Qed.

Lemma main_run (env : Env) (w : World) :
  ∃ v, main env w
       = ((main_plan env).1,
          finish (main_plan env).1
            (set_views v (set_storage (write_all (main_plan env).2 (storage w)) (started w)))).
Proof.
  unfold main. rewrite bind_run.
  destruct (create_spark_session_run env w) as [spark ->]. cbv beta iota zeta.
  rewrite bind_run, process_song_data_run.
  unfold main_plan, song_plan. cbv zeta.
  assert (storage (started w) = storage w) as Hst.
  { unfold started. by destruct (active w). }
  destruct (json_files env _ song_fields) as [rs|].
  2:{ exists (views (started w)). cbn. rewrite <- Hst. by destruct (started w). }
  cbn [attempt].
  destruct (write_ok env (_ +:+ "dimensions.parquet/songs")).
  2:{ exists (views (started w)). cbn. rewrite <- Hst. by destruct (started w). }
  destruct (write_ok env (_ +:+ "dimensions.parquet/artists")).
  2:{ exists (views (started w)). cbn. rewrite <- Hst. by destruct (started w). }
  cbv beta iota zeta. cbn [fst snd].
  rewrite bind_run.
  edestruct (process_log_data_run spark "s3a://udacity-dend/" "s3n://data-lake-cluster/" env)
    as [v Hv]; [| |rewrite Hv; clear Hv].
  - cbn [storage set_storage write_all foldl fst snd].
    rewrite lookup_insert_ne by done. apply lookup_insert_eq.
  - cbn [storage set_storage write_all foldl fst snd]. apply lookup_insert_eq.
  - exists v. rewrite write_all_app, <- Hst.
    destruct (log_plan _ _ _ _ env) as [[[]|e] ws]; cbn [fst snd];
      [rewrite stop_run|]; by destruct (started w).
Qed.

(** ** A run that completes *)

Lemma attempt_ok (env : Env) (ws : list (string * Stored)) :
  (attempt env ws).1 = Ok tt → (attempt env ws).2 = ws.
Proof.
  induction ws as [|[p t] ws IH]; [done|]. cbn [attempt].
  destruct (write_ok env p); [|done]. cbn. intros Hok. by rewrite IH.
Qed.

Lemma main_plan_ok (env : Env) :
  (main_plan env).1 = Ok tt →
  ∃ rs evs,
    json_files env song_data_path song_fields = Some rs
    ∧ json_files env log_data_path event_fields = Some evs
    ∧ (main_plan env).2
      = [(songs_path, stored_songs rs);
         (artists_path, stored_artists rs);
         (users_path, stored_users evs);
         (time_path, stored_time evs);
         (songplays_path,
          stored_songplays evs (rows (songs_table_of rs)) (rows (artists_table_of rs)))].
Proof.
  unfold main_plan, log_plan. cbv zeta.
  change ("s3a://udacity-dend/" +:+ "song_data/*/*/*/*.json") with song_data_path.
  change ("s3a://udacity-dend/" +:+ "log_data/*/*/*-events.json") with log_data_path.
  destruct (json_files env song_data_path song_fields) as [rs|]; [|done].
  destruct (attempt env [_; _]) as [[[]|e] ws] eqn:Hsong; [|done].
  destruct (json_files env log_data_path event_fields) as [evs|]; [|done].
  destruct (attempt env [(_, stored_users evs); _]) as [[[]|e] ws'] eqn:Hdim; [|done].
  destruct (readable (stored_songs rs) && readable (stored_artists rs)); [|done].
  cbn [fst snd]. intros Hlog. exists rs, evs. split_and!; [done..|].
  apply attempt_ok in Hlog. rewrite Hlog.
  pose proof (attempt_ok env _ (f_equal fst Hsong)) as Hws.
  rewrite Hsong in Hws. cbn [snd] in Hws.
  pose proof (attempt_ok env _ (f_equal fst Hdim)) as Hws'.
  rewrite Hdim in Hws'. cbn [snd] in Hws'. by rewrite Hws, Hws'.
Qed.

Lemma storage_finish r (w : World) : storage (finish r w) = storage w.
Proof. by destruct r. Qed.

Lemma main_storage (env : Env) (w : World) :
  storage (main env w).2 = write_all (main_plan env).2 (storage w).
Proof.
  destruct (main_run env w) as [v ->]. cbn [snd].
  rewrite storage_finish. reflexivity.
Qed.

Lemma main_outcome (env : Env) (w : World) : (main env w).1 = (main_plan env).1.
Proof. by destruct (main_run env w) as [v ->]. Qed.

(* the five tables of a completed run *)
Lemma main_ok_tables (env : Env) (w w' : World) :
  main env w = (Ok tt, w') →
  ∃ rs evs,
    json_files env song_data_path song_fields = Some rs
    ∧ json_files env log_data_path event_fields = Some evs
    ∧ storage w' !! songs_path = Some (stored_songs rs)
    ∧ storage w' !! artists_path = Some (stored_artists rs)
    ∧ storage w' !! users_path = Some (stored_users evs)
    ∧ storage w' !! time_path = Some (stored_time evs)
    ∧ storage w' !! songplays_path
      = Some (stored_songplays evs (rows (songs_table_of rs)) (rows (artists_table_of rs))).
Proof.
  intros Hm.
  pose proof (main_outcome env w) as Ho. pose proof (main_storage env w) as Hs.
  rewrite Hm in Ho, Hs. cbn [fst snd] in Ho, Hs. symmetry in Ho.
  destruct (main_plan_ok env Ho) as (rs & evs & Hj1 & Hj2 & Hws).
  exists rs, evs. rewrite Hs, Hws. cbn [write_all foldl fst snd].
  split_and!; try done;
    repeat (rewrite lookup_insert_eq || rewrite lookup_insert_ne by done); done.
Qed.

(** ** The driver and the session *)

Lemma stops_started (w : World) : stops (started w) = stops w.
Proof. unfold started. by destruct (active w). Qed.

Lemma active_started (w : World) : is_Some (active (started w)).
Proof. unfold started. destruct (active w); by eexists. Qed.

Lemma stops_stopped (w : World) : stops (stopped w) = S (stops w).
Proof. unfold stops. cbn [stopped session_log]. by rewrite filter_cons_True. Qed.

(** C1, as amended: the driver stops the session exactly once when both
    pipelines return; when a pipeline raises, the error leaves [main]
    before [spark.stop()] is reached, and the session is left as it was,
    active and not stopped. *)
Theorem session_stopped_only_on_normal_exit (env : Env) (w : World) :
  match (main env w).1 with
  | Ok _ => stops (main env w).2 = S (stops w) ∧ active (main env w).2 = None
  | Raised _ => stops (main env w).2 = stops w ∧ is_Some (active (main env w).2)
  end.
Proof.
  destruct (main_run env w) as [v ->]. cbn [fst snd].
  destruct (main_plan env).1 as [[]|e]; cbn [finish].
  - split; [|done]. rewrite stops_stopped. f_equal. apply stops_started.
  - split; [apply stops_started|apply active_started].
Qed.

(** ** Column names *)

(** C2, as amended: after a run that completes, the table at
    facts.parquet/songplays has the columns event_ts, year, month,
    user_id, level, session_id, location, user_agent, song_id, artist_id,
    in this order (the timestamp column keeps the name event_ts), and is
    partitioned by year, then month. *)
Theorem songplays_columns_and_partitions (env : Env) (w w' : World) :
  main env w = (Ok tt, w') →
  ∃ st, storage w' !! songplays_path = Some st
        ∧ columns (table st)
          = ["event_ts"; "year"; "month"; "user_id"; "level"; "session_id";
             "location"; "user_agent"; "song_id"; "artist_id"]
        ∧ partition_by st = ["year"; "month"].
Proof.
  intros Hm. destruct (main_ok_tables env w w' Hm) as (rs & evs & _ & _ & _ & _ & _ & _ & Hp).
  eexists. split; [exact Hp|]. done.
Qed.

(** ** The schema catalog *)

(** C3, as amended: for "song" the catalog gives the columns of
    SongRecord as the data model lists them, names, types and order; for
    "event" it gives the names and types of EventRecord in the order of
    the schema text of the script, where last_name comes after
    item_in_session, a permutation of the order of the data model; it is
    a function of the identifier alone, and it fails exactly on the other
    identifiers. *)
Theorem schema_catalog_contract :
  schema_catalog "song" = Some spec_song_record
  ∧ schema_catalog "event"
    = Some [("artist", STRING); ("auth", STRING); ("first_name", STRING);
            ("gender", STRING); ("item_in_session", INT); ("last_name", STRING);
            ("length", DOUBLE); ("level", STRING); ("location", STRING);
            ("method", STRING); ("page", STRING); ("registration", DOUBLE);
            ("session_id", LONG); ("song", STRING); ("status", INT); ("ts", LONG);
            ("user_agent", STRING); ("user_id", LONG)]
  ∧ (∃ l, schema_catalog "event" = Some l ∧ l ≡ₚ spec_event_record)
  ∧ (∀ source, schema_catalog source = None ↔ source ≠ "song" ∧ source ≠ "event").
Proof.
  split_and!.
  - vm_compute. reflexivity.
  - vm_compute. reflexivity.
  - eexists. split; [vm_compute; reflexivity|].
    unfold spec_event_record. do 3 apply perm_skip.
    symmetry. apply (Permutation_middle [_; _]).
  - intros source. unfold schema_catalog.
    destruct (String.eqb_spec source "song") as [->|Hs].
    { split; [by vm_compute|intros [? _]; done]. }
    destruct (String.eqb_spec source "event") as [->|He].
    { split; [by vm_compute|intros [_ ?]; done]. }
    done.
Qed.

(** ** The fact table *)

Lemma elem_of_songplays (evs S A : list row) (r : row) :
  r ∈ rows (songplays_table_of evs S A)
  ↔ ∃ e s a, e ∈ evs ∧ is_song_play e ∧ s ∈ S ∧ a ∈ A
             ∧ matches e s a ∧ r = songplay_row e s a.
Proof.
  cbn [rows songplays_table_of]. rewrite elem_of_remove_dups, list_elem_of_bind.
  split.
  - intros (e & Hr & [He1 He2]%list_elem_of_filter).
    apply list_elem_of_bind in Hr as (s & Hr & Hs).
    apply list_elem_of_bind in Hr as (a & Hr & Ha).
    destruct (decide (matches e s a)) as [Hm|Hm]; [|by apply elem_of_nil in Hr].
    apply list_elem_of_singleton in Hr. by exists e, s, a.
  - intros (e & s & a & He1 & He2 & Hs & Ha & Hm & ->).
    exists e. split; [|by apply list_elem_of_filter].
    apply list_elem_of_bind. exists s. split; [|done].
    apply list_elem_of_bind. exists a. split; [|done].
    rewrite decide_True by done. by apply list_elem_of_singleton.
Qed.

Lemma NoDup_songplays (evs S A : list row) : NoDup (rows (songplays_table_of evs S A)).
Proof. apply NoDup_remove_dups. Qed.

Lemma filter_eq_not_elem {X} `{!EqDecision X} (l : list X) (x : X) :
  x ∉ l → filter (λ y, y = x) l = [].
Proof.
  induction l as [|a l IH]; [done|].
  intros [Hxa Hx]%not_elem_of_cons.
  rewrite filter_cons_False by (intros ->; done). by apply IH.
Qed.

Lemma once_in_NoDup {X} `{!EqDecision X} (l : list X) (x : X) :
  NoDup l → x ∈ l → length (filter (λ y, y = x) l) = 1%nat.
Proof.
  induction 1 as [|y l Hy Hl IH]; [by intros ?%elem_of_nil|].
  intros [->|Hx]%elem_of_cons.
  - rewrite filter_cons_True by done. cbn. f_equal.
    by rewrite filter_eq_not_elem.
  - rewrite filter_cons_False by (intros ->; done). by apply IH.
Qed.

(** C4: after a run that completes, every row of the songplays table is
    the fact row of a song play among the events read (page = 'NextSong'
    and status = 200), a row of the songs table and a row of the artists
    table with ev.song = s.title and ev.artist = a.name (the SQL equality:
    both sides present and equal); and the fact row of every such triple is
    in the table exactly once. *)
Theorem songplays_join_exact (env : Env) (w w' : World) :
  main env w = (Ok tt, w') →
  ∃ evs songs artists plays,
    json_files env log_data_path event_fields = Some evs
    ∧ storage w' !! songs_path = Some songs
    ∧ storage w' !! artists_path = Some artists
    ∧ storage w' !! songplays_path = Some plays
    ∧ (∀ r, r ∈ rows (table plays) →
         ∃ e s a, e ∈ evs ∧ is_song_play e
                  ∧ s ∈ rows (table songs) ∧ a ∈ rows (table artists)
                  ∧ matches e s a ∧ r = songplay_row e s a)
    ∧ (∀ e s a, e ∈ evs → is_song_play e →
         s ∈ rows (table songs) → a ∈ rows (table artists) → matches e s a →
         length (filter (λ r, r = songplay_row e s a) (rows (table plays))) = 1%nat).
Proof.
  intros Hm.
  destruct (main_ok_tables env w w' Hm) as (rs & evs & _ & Hj & Hs & Ha & _ & _ & Hp).
  exists evs, (stored_songs rs), (stored_artists rs),
    (stored_songplays evs (rows (songs_table_of rs)) (rows (artists_table_of rs))).
  split_and!; try done.
  - intros r Hr. by apply elem_of_songplays in Hr.
  - intros e s a He1 He2 Hs' Ha' Hma.
    apply once_in_NoDup; [apply NoDup_songplays|].
    apply elem_of_songplays. by exists e, s, a.
Qed.

(** C9: the join does not compare Song.artist_id with Artist.artist_id.
    After a run that completes, for a song play among the events, a row of
    the songs table of that title and a row of the artists table of that
    name, the fact row with that song_id and that artist_id is in the
    songplays table, whatever the artist_id of the Song row, equal to the
    artist_id of the Artist row or not; and two such pairs of catalog rows for one
    event, with different song_id or different artist_id, give two
    different fact rows of the table. *)
Theorem songplays_join_ignores_artist_id (env : Env) (w w' : World) :
  main env w = (Ok tt, w') →
  ∃ evs songs artists plays,
    json_files env log_data_path event_fields = Some evs
    ∧ storage w' !! songs_path = Some songs
    ∧ storage w' !! artists_path = Some artists
    ∧ storage w' !! songplays_path = Some plays
    ∧ (∀ e s a, e ∈ evs → is_song_play e →
         s ∈ rows (table songs) → a ∈ rows (table artists) → matches e s a →
         songplay_row e s a ∈ rows (table plays)
         ∧ field songplays_columns "song_id" (songplay_row e s a)
           = field songs_columns "song_id" s
         ∧ field songplays_columns "artist_id" (songplay_row e s a)
           = field artists_columns "artist_id" a)
    ∧ (∀ e s1 a1 s2 a2, e ∈ evs → is_song_play e →
         s1 ∈ rows (table songs) → a1 ∈ rows (table artists) → matches e s1 a1 →
         s2 ∈ rows (table songs) → a2 ∈ rows (table artists) → matches e s2 a2 →
         (field songs_columns "song_id" s1 ≠ field songs_columns "song_id" s2
          ∨ field artists_columns "artist_id" a1 ≠ field artists_columns "artist_id" a2) →
         songplay_row e s1 a1 ∈ rows (table plays)
         ∧ songplay_row e s2 a2 ∈ rows (table plays)
         ∧ songplay_row e s1 a1 ≠ songplay_row e s2 a2).
Proof.
  intros Hm.
  destruct (main_ok_tables env w w' Hm) as (rs & evs & _ & Hj & Hs & Ha & _ & _ & Hp).
  exists evs, (stored_songs rs), (stored_artists rs),
    (stored_songplays evs (rows (songs_table_of rs)) (rows (artists_table_of rs))).
  split_and!; try done.
  - intros e s a He1 He2 Hs' Ha' Hma. split; [|done].
    apply elem_of_songplays. by exists e, s, a.
  - intros e s1 a1 s2 a2 He1 He2 Hs1 Ha1 Hm1 Hs2 Ha2 Hm2 Hne. split_and!.
    + apply elem_of_songplays. by exists e, s1, a1.
    + apply elem_of_songplays. by exists e, s2, a2.
    + intros Heq. unfold songplay_row in Heq. injection Heq as Hsid Haid.
      destruct Hne as [Hne|Hne]; done.
Qed.

(** ** The dimension tables *)

(** C6: after a run that completes, none of the four dimension tables
    (songs, artists, users, time) holds a row twice, and equal tuples
    collapse to one row: the tuple selected from a song record read is in
    the songs table exactly once and the one selected for the artists
    table is there exactly once; the tuple selected from a song play among
    the events read is in the users table exactly once, and its time row
    is in the time table exactly once, however many records give that
    tuple. *)
Theorem dimension_tables_have_no_duplicates (env : Env) (w w' : World) :
  main env w = (Ok tt, w') →
  ∃ rs evs songs artists users time,
    json_files env song_data_path song_fields = Some rs
    ∧ json_files env log_data_path event_fields = Some evs
    ∧ storage w' !! songs_path = Some songs
    ∧ storage w' !! artists_path = Some artists
    ∧ storage w' !! users_path = Some users
    ∧ storage w' !! time_path = Some time
    ∧ NoDup (rows (table songs)) ∧ NoDup (rows (table artists))
    ∧ NoDup (rows (table users)) ∧ NoDup (rows (table time))
    ∧ (∀ x, x ∈ rs →
         length (filter (λ r, r = song_row x) (rows (table songs))) = 1%nat
         ∧ length (filter (λ r, r = artist_row x) (rows (table artists))) = 1%nat)
    ∧ (∀ e, e ∈ evs → is_song_play e →
         length (filter (λ r, r = user_row e) (rows (table users))) = 1%nat
         ∧ length (filter (λ r, r = time_row e) (rows (table time))) = 1%nat).
Proof.
  intros Hm.
  destruct (main_ok_tables env w w' Hm) as (rs & evs & Hj1 & Hj2 & Hs & Ha & Hu & Ht & _).
  exists rs, evs, (stored_songs rs), (stored_artists rs), (stored_users evs), (stored_time evs).
  split_and!; try done; try apply NoDup_remove_dups.
  - intros x Hx.
    split; (apply once_in_NoDup; [apply NoDup_remove_dups|]);
      by apply elem_of_remove_dups, list_elem_of_fmap_2.
  - intros e He Hp.
    split; (apply once_in_NoDup; [apply NoDup_remove_dups|]);
      by apply elem_of_remove_dups, list_elem_of_fmap_2, list_elem_of_filter.
Qed.

Lemma elem_of_time_table (evs : list row) (r : row) :
  r ∈ rows (time_table_of evs) ↔ ∃ e, e ∈ evs ∧ is_song_play e ∧ r = time_row e.
Proof.
  cbn [rows time_table_of]. rewrite elem_of_remove_dups, list_elem_of_fmap.
  setoid_rewrite list_elem_of_filter. naive_solver.
Qed.

Lemma event_ts_of_millis (e : row) (T : Z) :
  field event_columns "ts" e = VInt T → event_ts e = timestamp_of_millis T.
Proof.
  intros Hts. unfold event_ts, timestamp_of_millis. rewrite Hts. cbn.
  destruct (double_div _ _) as [d|]; [|done]. cbn.
  by destruct (double_to_timestamp d).
Qed.

(** C7: after a run that completes, the time table has a row for every
    song play among the events read, and for an event with ts = T the
    start_time of that row is timestamp(T / 1000): T and 1000 divided as
    doubles, the quotient cast to a timestamp; every row of the table is
    the row of such an event, and its hour, day, week, month, year and
    weekday are the engine's hour, day, weekofyear, month, year and
    dayofweek of its start_time. *)
Theorem time_rows_from_event_timestamps (env : Env) (w w' : World) :
  main env w = (Ok tt, w') →
  ∃ evs st,
    json_files env log_data_path event_fields = Some evs
    ∧ storage w' !! time_path = Some st
    ∧ columns (table st) = ["start_time"; "hour"; "day"; "week"; "month"; "year"; "weekday"]
    ∧ (∀ e T, e ∈ evs → is_song_play e → field event_columns "ts" e = VInt T →
         ∃ r, r ∈ rows (table st)
              ∧ field time_columns "start_time" r = timestamp_of_millis T)
    ∧ (∀ r, r ∈ rows (table st) →
         (∃ e, e ∈ evs ∧ is_song_play e
               ∧ field time_columns "start_time" r = event_ts e)
         ∧ field time_columns "hour" r = on_timestamp hour (field time_columns "start_time" r)
         ∧ field time_columns "day" r = on_timestamp day (field time_columns "start_time" r)
         ∧ field time_columns "week" r
           = on_timestamp weekofyear (field time_columns "start_time" r)
         ∧ field time_columns "month" r = on_timestamp month (field time_columns "start_time" r)
         ∧ field time_columns "year" r = on_timestamp year (field time_columns "start_time" r)
         ∧ field time_columns "weekday" r
           = on_timestamp dayofweek (field time_columns "start_time" r)).
Proof.
  intros Hm.
  destruct (main_ok_tables env w w' Hm) as (rs & evs & _ & Hj & _ & _ & _ & Ht & _).
  exists evs, (stored_time evs). split_and!; try done.
  - intros e T He1 He2 Hts. exists (time_row e). split.
    + apply elem_of_time_table. by exists e.
    + by apply event_ts_of_millis.
  - intros r (e & He1 & He2 & ->)%elem_of_time_table.
    split_and!; try done. by exists e.
Qed.

(** ** Only song plays count *)

Lemma json_files_with_json path (rs : list row) (env : Env) schema :
  json_files (with_json path rs env) path schema = Some rs.
Proof. cbn. by rewrite String.eqb_refl. Qed.

Lemma main_plan_with_json (evs : list row) (env : Env) :
  main_plan (with_json log_data_path evs env)
  = match json_files env song_data_path song_fields with
    | None => (Raised AnalysisException, [])
    | Some rs =>
        match attempt env [(songs_path, stored_songs rs);
                           (artists_path, stored_artists rs)] with
        | (Ok _, ws) =>
            let r :=
              match attempt env [(users_path, stored_users evs);
                                 (time_path, stored_time evs)] with
              | (Ok _, ws') =>
                  if readable (stored_songs rs) && readable (stored_artists rs) then
                    let r' := attempt env
                                [(songplays_path,
                                  stored_songplays evs (rows (songs_table_of rs))
                                    (rows (artists_table_of rs)))] in
                    (r'.1, (ws' ++ r'.2)%list)
                  else (Raised AnalysisException, ws')
              | (Raised e, ws') => (Raised e, ws')
              end in
            (r.1, (ws ++ r.2)%list)
        | (Raised e, ws) => (Raised e, ws)
        end
    end.
Proof. reflexivity. Qed.

(** C5: the users, time and songplays tables are functions of the song
    plays alone (page = 'NextSong' AND status = 200).  Two runs on event
    files with the same song plays, everything else alike, end the same
    way and leave the same tables in the store; so an event that is not a
    song play, wherever it stands in the input, changes no table. *)
Theorem only_song_plays_count (env : Env) (w : World) (evs evs' : list row) :
  filter is_song_play evs = filter is_song_play evs' →
  (main (with_json log_data_path evs env) w).1
  = (main (with_json log_data_path evs' env) w).1
  ∧ storage (main (with_json log_data_path evs env) w).2
    = storage (main (with_json log_data_path evs' env) w).2.
Proof.
  intros Hf. rewrite !main_outcome, !main_storage, !main_plan_with_json.
  unfold stored_users, stored_time, stored_songplays,
    users_table_of, time_table_of, songplays_table_of.
  by rewrite Hf.
Qed.

(** ** Null never joins *)

Lemma bind_all_nil {X Y} (l : list X) (f : X → list Y) :
  (∀ x, f x = []) → l ≫= f = [].
Proof. intros Hf. induction l as [|x l IH]; [done|]. cbn. by rewrite Hf, IH. Qed.

Lemma null_never_matches (e s a : row) :
  field event_columns "song" e = VNull ∨ field event_columns "artist" e = VNull →
  ¬ matches e s a.
Proof. intros [Hn|Hn] [Hs Ha]; [rewrite Hn in Hs|rewrite Hn in Ha]; done. Qed.

Lemma songplays_without_null_event (evs1 evs2 : list row) (e : row) (S A : list row) :
  field event_columns "song" e = VNull ∨ field event_columns "artist" e = VNull →
  songplays_table_of (evs1 ++ e :: evs2) S A = songplays_table_of (evs1 ++ evs2) S A.
Proof.
  intros Hn. unfold songplays_table_of. do 2 f_equal.
  rewrite !filter_app, filter_cons.
  destruct (decide (is_song_play e)); [|done].
  rewrite !bind_app. f_equal. cbn [mbind list_bind].
  rewrite (bind_all_nil S); [done|]. intros s.
  apply bind_all_nil. intros a.
  by rewrite decide_False by by apply null_never_matches.
Qed.

(** C10: a song play whose song is null or whose artist is null matches
    no pair of catalog rows, also not rows whose title or name is null;
    and the songplays table a run leaves in the store is the one it leaves
    when that event is taken out of the input. *)
Theorem null_song_or_artist_gives_no_fact_row
    (env : Env) (w : World) (evs1 evs2 : list row) (e : row) :
  field event_columns "song" e = VNull ∨ field event_columns "artist" e = VNull →
  (∀ s a, ¬ matches e s a)
  ∧ storage (main (with_json log_data_path (evs1 ++ e :: evs2) env) w).2 !! songplays_path
    = storage (main (with_json log_data_path (evs1 ++ evs2) env) w).2 !! songplays_path.
Proof.
  intros Hn. split; [intros s a; by apply null_never_matches|].
  rewrite !main_storage, !main_plan_with_json.
  destruct (json_files env song_data_path song_fields) as [rs|]; [|done].
  cbn [attempt].
  destruct (write_ok env songs_path); [|done].
  destruct (write_ok env artists_path); [|done].
  destruct (write_ok env users_path); [|done].
  destruct (write_ok env time_path);
    [|cbn [fst snd app write_all foldl];
      by repeat (rewrite lookup_insert_eq || rewrite lookup_insert_ne by done)].
  destruct (readable (stored_songs rs) && readable (stored_artists rs));
    [|cbn [fst snd app write_all foldl];
      by repeat (rewrite lookup_insert_eq || rewrite lookup_insert_ne by done)].
  destruct (write_ok env songplays_path);
    cbn [fst snd app write_all foldl];
    repeat (rewrite lookup_insert_eq || rewrite lookup_insert_ne by done); [|done].
  unfold stored_songplays. by rewrite songplays_without_null_event.
Qed.

(** ** Running twice *)

Lemma write_all_snoc (ws : list (string * Stored)) p t s :
  write_all (ws ++ [(p, t)]) s = <[p := t]> (write_all ws s).
Proof. unfold write_all. by rewrite foldl_app. Qed.

Lemma write_all_union (ws : list (string * Stored)) (s : gmap string Stored) :
  write_all ws s = write_all ws ∅ ∪ s.
Proof.
  induction ws as [|[p t] ws IH] using rev_ind.
  - cbn. by rewrite (left_id_L ∅ (∪)).
  - by rewrite !write_all_snoc, IH, insert_union_l.
Qed.

Lemma write_all_twice (ws : list (string * Stored)) (s : gmap string Stored) :
  write_all ws (write_all ws s) = write_all ws s.
Proof.
  rewrite (write_all_union ws (write_all ws s)), (write_all_union ws s).
  by rewrite (assoc_L (∪)), (idemp_L (∪)).
Qed.

(** C8: for fixed input files, the store after two runs of the job in
    succession is the store after one run: each table is overwritten with
    the rows computed from the input, nothing accumulates.  The second run
    also ends as the first did. *)
Theorem rerun_leaves_the_same_tables (env : Env) (w : World) :
  storage (main env (main env w).2).2 = storage (main env w).2
  ∧ (main env (main env w).2).1 = (main env w).1.
Proof.
  split; [|by rewrite !main_outcome].
  rewrite !main_storage. apply write_all_twice.
Qed.

End Properties.

(** * Further properties of the job *)

Section Further.
Context {double timestamp : Type}.
Context `{!EqDecision double, !EqDecision timestamp, !Engine double timestamp}.

Local Notation "'value'" := (value double timestamp) (only parsing).
Local Notation "'row'" := (row double timestamp) (only parsing).
Local Notation "'DataFrame'" := (DataFrame double timestamp) (only parsing).
Local Notation "'Stored'" := (Stored double timestamp) (only parsing).
Local Notation "'Env'" := (Env double timestamp) (only parsing).
Local Notation "'World'" := (World double timestamp) (only parsing).
Local Notation "'M'" := (M double timestamp) (only parsing).

(** ** The log pipeline on any store *)

Lemma run_query_columns q tables (df : DataFrame) :
  run_query q tables = Some df → columns df = output_name <$> q_select q.
Proof.
  unfold run_query.
  destruct (mapM _ (q_select q)) as [fs|]; [|done]. cbn.
  destruct (compile_cond _ (q_where q)) as [p|]; [|done]. cbn.
  by intros [= <-].
Qed.

Lemma sql_cases spark q (env : Env) (w : World) :
  sql spark q env w =
  match mapM (λ va : string * string, df ← views w !! va.1; Some (va.2, df)) (q_from q) with
  | Some tables =>
      match run_query q tables with
      | Some df => (Ok df, w)
      | None => (Raised AnalysisException, w)
      end
  | None => (Raised AnalysisException, w)
  end.
Proof.
  unfold sql. rewrite bind_run. unfold get at 1. cbv beta iota.
  rewrite bind_run, !analysed_run.
  destruct (mapM _ (q_from q)) as [tables|]; [|done].
  by destruct (run_query q tables).
Qed.

Lemma process_log_data_cases spark i o (env : Env) (w : World) :
  process_log_data spark i o env w =
  match json_files env (i +:+ "log_data/*/*/*-events.json") event_fields with
  | None => (Raised AnalysisException, w)
  | Some evs =>
      if write_ok env (o +:+ "dimensions.parquet/users") then
        let w1 := set_storage (<[o +:+ "dimensions.parquet/users" := stored_users evs]>
                                 (storage w)) w in
        if write_ok env (o +:+ "dimensions.parquet/time") then
          let w2 := set_storage (<[o +:+ "dimensions.parquet/time" := stored_time evs]>
                                   (storage w1)) w1 in
          match storage w !! (o +:+ "dimensions.parquet/songs") with
          | Some ss =>
              if readable ss then
                match storage w !! (o +:+ "dimensions.parquet/artists") with
                | Some sa =>
                    if readable sa then
                      let w3 := set_views (<["events" := events_view evs]>
                                             (<["artist" := table sa]>
                                                (<["song" := table ss]> (views w)))) w2 in
                      match run_query songplays_query
                              [("ev", events_view evs); ("s", table ss); ("a", table sa)] with
                      | Some df =>
                          if write_ok env (o +:+ "facts.parquet/songplays") then
                            (Ok tt,
                             set_storage (<[o +:+ "facts.parquet/songplays" :=
                                             {| partition_by := ["year"; "month"];
                                                table := df |}]>
                                            (storage w3)) w3)
                          else (Raised IOError, w3)
                      | None => (Raised AnalysisException, w3)
                      end
                    else (Raised AnalysisException, w2)
                | None => (Raised AnalysisException, w2)
                end
              else (Raised AnalysisException, w2)
          | None => (Raised AnalysisException, w2)
          end
        else (Raised IOError, w1)
      else (Raised IOError, w)
  end.
Proof.
  unfold process_log_data. cbv zeta.
  rewrite bind_run, (read_json_run _ _ _ _ _ _ parse_event_schema).
  destruct (json_files env _ event_fields) as [evs|]; [|done].
  rewrite bind_run, analysed_run, filter_song_plays. cbv beta iota.
  rewrite bind_run, analysed_run, select_users. cbv beta iota.
  rewrite bind_run, write_overwrite_run by (by eexists).
  destruct (write_ok env (o +:+ "dimensions.parquet/users")); [|done].
  cbv beta iota.
  rewrite bind_run, analysed_run, withColumn_event_ts. cbv beta iota.
  rewrite bind_run, analysed_run, selectExpr_time. cbv beta iota.
  rewrite bind_run, write_overwrite_run by (by eexists).
  destruct (write_ok env (o +:+ "dimensions.parquet/time")); [|done].
  cbv beta iota.
  rewrite bind_run, read_parquet_run. cbn [storage set_storage].
  rewrite !lookup_insert_ne by (intros ?%append_inj_l; done).
  destruct (storage w !! (o +:+ "dimensions.parquet/songs")) as [ss|]; [|done].
  destruct (readable ss); [|done].
  cbv beta iota.
  rewrite bind_run, read_parquet_run. cbn [storage set_storage].
  rewrite !lookup_insert_ne by (intros ?%append_inj_l; done).
  destruct (storage w !! (o +:+ "dimensions.parquet/artists")) as [sa|]; [|done].
  destruct (readable sa); [|done].
  cbv beta iota.
  rewrite bind_run, createOrReplaceTempView_run.
  rewrite bind_run, createOrReplaceTempView_run.
  rewrite bind_run, createOrReplaceTempView_run.
  rewrite bind_run, sql_cases.
  cbn [q_from songplays_query mapM fst snd views set_views].
  repeat (rewrite lookup_insert_eq || rewrite lookup_insert_ne by done).
  cbn [mbind option_bind mret option_ret].
  change {| columns := (event_columns ++ ["event_ts"])%list;
            rows := with_event_ts <$> filter is_song_play evs |} with (events_view evs).
  destruct (run_query songplays_query _) as [df|] eqn:Hq; [|done].
  rewrite write_overwrite_run.
  2:{ unfold df_scope. rewrite (run_query_columns _ _ _ Hq). by eexists. }
  by destruct (write_ok env (o +:+ "facts.parquet/songplays")).
Qed.

(** X13: without the songs table or the artists table in the store, the
    log pipeline raises at the read-back, after it has overwritten the
    users and the time tables; the fact table and the views are as they
    were. *)
Theorem log_pipeline_needs_the_catalog_tables spark i o (env : Env) (w : World) evs :
  json_files env (i +:+ "log_data/*/*/*-events.json") event_fields = Some evs →
  write_ok env (o +:+ "dimensions.parquet/users") = true →
  write_ok env (o +:+ "dimensions.parquet/time") = true →
  storage w !! (o +:+ "dimensions.parquet/songs") = None
  ∨ storage w !! (o +:+ "dimensions.parquet/artists") = None →
  ∃ w', process_log_data spark i o env w = (Raised AnalysisException, w')
        ∧ storage w' !! (o +:+ "dimensions.parquet/users") = Some (stored_users evs)
        ∧ storage w' !! (o +:+ "dimensions.parquet/time") = Some (stored_time evs)
        ∧ storage w' !! (o +:+ "facts.parquet/songplays")
          = storage w !! (o +:+ "facts.parquet/songplays")
        ∧ views w' = views w.
Proof.
  intros Hj Hu Ht Hmiss. rewrite process_log_data_cases, Hj, Hu, Ht. cbv zeta.
  eexists. split.
  - destruct Hmiss as [-> | ->]; [done|].
    destruct (storage w !! (o +:+ "dimensions.parquet/songs")) as [ss|]; [|done].
    by destruct (readable ss).
  - cbn [storage set_storage views]. split_and!; [| | |done].
    + rewrite lookup_insert_ne by (intros ?%append_inj_l; done). apply lookup_insert_eq.
    + apply lookup_insert_eq.
    + by rewrite !lookup_insert_ne by (intros ?%append_inj_l; done).
Qed.

Lemma json_files_with_json_ne p q (rs : list row) (env : Env) schema :
  p ≠ q → json_files (with_json p rs env) q schema = json_files env q schema.
Proof.
  intros Hne. cbn. destruct (String.eqb_spec q p) as [->|]; [done|done].
Qed.

(** X14: the log pipeline does not read the song files: whatever they
    hold, it returns the same outcome and leaves the same world. *)
Theorem log_pipeline_ignores_song_files spark i o (env : Env) (w : World) (rs : list row) :
  process_log_data spark i o (with_json (i +:+ "song_data/*/*/*/*.json") rs env) w
  = process_log_data spark i o env w.
Proof.
  rewrite !process_log_data_cases.
  rewrite json_files_with_json_ne by (intros ?%append_inj_l; done).
  reflexivity.
Qed.

(** X15: when the log pipeline completes, the fact table it wrote is the
    result of the query on the song plays and on the songs and artists
    tables that were in the store when it started, and these three are
    the views song, artist and events of the session; the other views are
    untouched. *)
Theorem log_pipeline_joins_the_stored_tables spark i o (env : Env) (w w' : World) :
  process_log_data spark i o env w = (Ok tt, w') →
  ∃ evs ss sa df,
    json_files env (i +:+ "log_data/*/*/*-events.json") event_fields = Some evs
    ∧ storage w !! (o +:+ "dimensions.parquet/songs") = Some ss
    ∧ storage w !! (o +:+ "dimensions.parquet/artists") = Some sa
    ∧ run_query songplays_query
        [("ev", events_view evs); ("s", table ss); ("a", table sa)] = Some df
    ∧ storage w' !! (o +:+ "facts.parquet/songplays")
      = Some {| partition_by := ["year"; "month"]; table := df |}
    ∧ views w' !! "song" = Some (table ss)
    ∧ views w' !! "artist" = Some (table sa)
    ∧ views w' !! "events" = Some (events_view evs)
    ∧ ∀ name, name ≠ "song" → name ≠ "artist" → name ≠ "events" →
        views w' !! name = views w !! name.
Proof.
  rewrite process_log_data_cases.
  destruct (json_files env _ event_fields) as [evs|]; [|done].
  destruct (write_ok env (o +:+ "dimensions.parquet/users")); [|done].
  destruct (write_ok env (o +:+ "dimensions.parquet/time")); [|done].
  destruct (storage w !! (o +:+ "dimensions.parquet/songs")) as [ss|]; [|done].
  destruct (readable ss); [|done].
  destruct (storage w !! (o +:+ "dimensions.parquet/artists")) as [sa|]; [|done].
  destruct (readable sa); [|done].
  cbv zeta.
  destruct (run_query songplays_query _) as [df|] eqn:Hq; [|done].
  destruct (write_ok env (o +:+ "facts.parquet/songplays")); [|done].
  intros [= <-]. exists evs, ss, sa, df. cbn [storage views set_storage set_views].
  split_and!; try done.
  - apply lookup_insert_eq.
  - rewrite !lookup_insert_ne by done. apply lookup_insert_eq.
  - rewrite lookup_insert_ne by done. apply lookup_insert_eq.
  - apply lookup_insert_eq.
  - intros name H1 H2 H3. by rewrite !lookup_insert_ne.
Qed.

(** ** What the pipelines leave alone *)

Lemma lookup_write_all_ne (ws : list (string * Stored)) (s : gmap string Stored) p :
  p ∉ ws.*1 → write_all ws s !! p = s !! p.
Proof.
  induction ws as [|[q t] ws IH] using rev_ind; [done|].
  rewrite fmap_app, not_elem_of_app. cbn. intros [Hws Hq%not_elem_of_cons].
  rewrite write_all_snoc, lookup_insert_ne by naive_solver. by apply IH.
Qed.

Lemma attempt_keys (env : Env) (ws : list (string * Stored)) p :
  p ∈ (attempt env ws).2.*1 → p ∈ ws.*1.
Proof.
  induction ws as [|[q t] ws IH]; [done|]. cbn [attempt].
  destruct (write_ok env q); [|by intros ?%elem_of_nil].
  cbn. rewrite !elem_of_cons. naive_solver.
Qed.

(** X3: the song pipeline writes at the songs and artists paths of the
    output root and nowhere else, and leaves the views and the session as
    they were, whatever its outcome. *)
Theorem song_pipeline_touches_two_tables_only spark i o (env : Env) (w : World) :
  views (process_song_data spark i o env w).2 = views w
  ∧ active (process_song_data spark i o env w).2 = active w
  ∧ session_log (process_song_data spark i o env w).2 = session_log w
  ∧ ∀ p, p ≠ o +:+ "dimensions.parquet/songs" →
         p ≠ o +:+ "dimensions.parquet/artists" →
         storage (process_song_data spark i o env w).2 !! p = storage w !! p.
Proof.
  rewrite process_song_data_run. cbn [snd views active session_log storage set_storage].
  split_and!; try done. intros p Hs Ha. apply lookup_write_all_ne.
  unfold song_plan. destruct (json_files env _ song_fields) as [rs|]; [|apply not_elem_of_nil].
  intros Hp%attempt_keys. cbn in Hp. rewrite !elem_of_cons in Hp.
  destruct Hp as [?|[?|?%elem_of_nil]]; done.
Qed.

Lemma log_plan_keys i o (songs artists : Stored) (env : Env) p :
  p ∈ (log_plan i o songs artists env).2.*1 →
  p ∈ [o +:+ "dimensions.parquet/users"; o +:+ "dimensions.parquet/time";
       o +:+ "facts.parquet/songplays"].
Proof.
  unfold log_plan.
  destruct (json_files env _ event_fields) as [evs|]; [|by intros ?%elem_of_nil].
  destruct (attempt env [_; _]) as [[[]|e] ws] eqn:Hdim.
  - pose proof (attempt_ok env _ (f_equal fst Hdim)) as Hws.
    rewrite Hdim in Hws. cbn [snd] in Hws. subst ws.
    destruct (readable songs && readable artists); cbn [fst snd].
    + rewrite fmap_app, elem_of_app. intros [Hp|Hp%attempt_keys].
      * cbn in Hp. set_solver.
      * cbn in Hp. set_solver.
    + cbn. set_solver.
  - intros Hp.
    assert (p ∈ (attempt env [(o +:+ "dimensions.parquet/users", stored_users evs);
                              (o +:+ "dimensions.parquet/time", stored_time evs)]).2.*1)
      as Hp'%attempt_keys by (by rewrite Hdim).
    cbn in Hp'. set_solver.
Qed.

Lemma main_plan_keys (env : Env) p :
  p ∈ (main_plan env).2.*1 →
  p ∈ [songs_path; artists_path; users_path; time_path; songplays_path].
Proof.
  unfold main_plan. cbv zeta.
  destruct (json_files env _ song_fields) as [rs|]; [|by intros ?%elem_of_nil].
  destruct (attempt env [_; _]) as [[[]|e] ws] eqn:Hsong.
  - pose proof (attempt_ok env _ (f_equal fst Hsong)) as Hws.
    rewrite Hsong in Hws. cbn [snd] in Hws. subst ws. cbn [fst snd].
    rewrite fmap_app, elem_of_app. intros [Hp|Hp%log_plan_keys].
    + cbn in Hp. set_solver.
    + set_solver.
  - intros Hp. assert (p ∈ (attempt env [(_ +:+ "dimensions.parquet/songs", stored_songs rs);
                                          (_ +:+ "dimensions.parquet/artists", stored_artists rs)]).2.*1)
      as Hp'%attempt_keys by (by rewrite Hsong).
    cbn in Hp'. set_solver.
Qed.

(** X2: whatever its outcome, a run changes the store at its five output
    paths only: every other path holds after the run what it held
    before. *)
Theorem main_changes_its_five_tables_only (env : Env) (w : World) :
  ∀ p, p ∉ [songs_path; artists_path; users_path; time_path; songplays_path] →
       storage (main env w).2 !! p = storage w !! p.
Proof.
  rewrite main_storage.
  intros p Hp. apply lookup_write_all_ne. intros Hin. apply Hp. by apply (main_plan_keys env).
Qed.

(** ** Failures leave what was written *)

Lemma readable_stored_songs (rs : list row) :
  rs ≠ [] → readable (stored_songs rs) = true.
Proof.
  destruct rs as [|x rs]; [done|]. intros _.
  unfold readable, stored_songs, songs_table_of. cbn [partition_by table rows].
  destruct (remove_dups _) as [|r l] eqn:Hd; [|done].
  assert (song_row x ∈ remove_dups (song_row <$> x :: rs)) as Hin
    by (apply elem_of_remove_dups; left).
  rewrite Hd in Hin. by apply elem_of_nil in Hin.
Qed.

(** X4: when the song files hold a record and the store refuses the
    write of the fact table, the run ends with that error after the four
    dimension tables have been overwritten: they hold the new rows, the
    fact table is the one from before the run, and the session has not
    been stopped. *)
Theorem refused_fact_write_keeps_new_dimensions (env : Env) (w : World) rs evs :
  json_files env song_data_path song_fields = Some rs →
  rs ≠ [] →
  json_files env log_data_path event_fields = Some evs →
  write_ok env songs_path = true → write_ok env artists_path = true →
  write_ok env users_path = true → write_ok env time_path = true →
  write_ok env songplays_path = false →
  (main env w).1 = Raised IOError
  ∧ storage (main env w).2 !! songs_path = Some (stored_songs rs)
  ∧ storage (main env w).2 !! artists_path = Some (stored_artists rs)
  ∧ storage (main env w).2 !! users_path = Some (stored_users evs)
  ∧ storage (main env w).2 !! time_path = Some (stored_time evs)
  ∧ storage (main env w).2 !! songplays_path = storage w !! songplays_path
  ∧ stops (main env w).2 = stops w.
Proof.
  intros Hj1 Hrs Hj2 H1 H2 H3 H4 H5.
  pose proof (readable_stored_songs rs Hrs) as Hread.
  assert (main_plan env
          = (Raised IOError,
             [(songs_path, stored_songs rs); (artists_path, stored_artists rs);
              (users_path, stored_users evs); (time_path, stored_time evs)])) as Hplan.
  { unfold main_plan, log_plan. cbv zeta.
    change ("s3a://udacity-dend/" +:+ "song_data/*/*/*/*.json") with song_data_path.
    change ("s3a://udacity-dend/" +:+ "log_data/*/*/*-events.json") with log_data_path.
    rewrite Hj1, Hj2. cbn [attempt].
    change ("s3n://data-lake-cluster/" +:+ "dimensions.parquet/songs") with songs_path.
    change ("s3n://data-lake-cluster/" +:+ "dimensions.parquet/artists") with artists_path.
    change ("s3n://data-lake-cluster/" +:+ "dimensions.parquet/users") with users_path.
    change ("s3n://data-lake-cluster/" +:+ "dimensions.parquet/time") with time_path.
    change ("s3n://data-lake-cluster/" +:+ "facts.parquet/songplays") with songplays_path.
    by rewrite H1, H2, H3, H4, H5, Hread. }
  destruct (main_run env w) as [v ->]. rewrite Hplan.
  cbn [fst snd finish storage set_views set_storage write_all foldl].
  split_and!; try done;
    repeat (rewrite lookup_insert_eq || rewrite lookup_insert_ne by done); try done.
  unfold stops. cbn [session_log set_views set_storage].
  unfold started. by destruct (active w).
Qed.

(** ** The dimension tables *)

(** X5: after a run that completes, the songs table has the columns
    song_id, title, artist_id, year, duration and is partitioned by year,
    then artist_id; the artists table has artist_id, name, location,
    latitude, longitude and no partition; the users table has user_id,
    first_name, last_name, gender, level and no partition; the time table
    is partitioned by year, then month. *)
Theorem dimension_tables_layout (env : Env) (w w' : World) :
  main env w = (Ok tt, w') →
  ∃ songs artists users time,
    storage w' !! songs_path = Some songs
    ∧ storage w' !! artists_path = Some artists
    ∧ storage w' !! users_path = Some users
    ∧ storage w' !! time_path = Some time
    ∧ columns (table songs) = ["song_id"; "title"; "artist_id"; "year"; "duration"]
    ∧ partition_by songs = ["year"; "artist_id"]
    ∧ columns (table artists) = ["artist_id"; "name"; "location"; "latitude"; "longitude"]
    ∧ partition_by artists = []
    ∧ columns (table users) = ["user_id"; "first_name"; "last_name"; "gender"; "level"]
    ∧ partition_by users = []
    ∧ partition_by time = ["year"; "month"].
Proof.
  intros Hm.
  destruct (main_ok_tables env w w' Hm) as (rs & evs & _ & _ & Hs & Ha & Hu & Ht & _).
  exists (stored_songs rs), (stored_artists rs), (stored_users evs), (stored_time evs).
  by split_and!.
Qed.

(** X6: the song pipeline filters nothing: after a run that completes,
    the rows of the songs table are the song_id, title, artist_id, year
    and duration of the song records read, every record giving a row, and
    the rows of the artists table are their artist_id, artist_name,
    artist_location, artist_latitude and artist_longitude, under the names
    artist_id, name, location, latitude, longitude. *)
Theorem songs_and_artists_are_the_projected_records (env : Env) (w w' : World) :
  main env w = (Ok tt, w') →
  ∃ rs songs artists,
    json_files env song_data_path song_fields = Some rs
    ∧ storage w' !! songs_path = Some songs
    ∧ storage w' !! artists_path = Some artists
    ∧ (∀ r, r ∈ rows (table songs) ↔
         ∃ x, x ∈ rs
              ∧ r = [field song_columns "song_id" x; field song_columns "title" x;
                     field song_columns "artist_id" x; field song_columns "year" x;
                     field song_columns "duration" x])
    ∧ (∀ r, r ∈ rows (table artists) ↔
         ∃ x, x ∈ rs
              ∧ r = [field song_columns "artist_id" x; field song_columns "artist_name" x;
                     field song_columns "artist_location" x;
                     field song_columns "artist_latitude" x;
                     field song_columns "artist_longitude" x]).
Proof.
  intros Hm.
  destruct (main_ok_tables env w w' Hm) as (rs & evs & Hj & _ & Hs & Ha & _).
  exists rs, (stored_songs rs), (stored_artists rs). split_and!; try done.
  - intros r. cbn [rows table stored_songs songs_table_of].
    rewrite elem_of_remove_dups, list_elem_of_fmap. naive_solver.
  - intros r. cbn [rows table stored_artists artists_table_of].
    rewrite elem_of_remove_dups, list_elem_of_fmap. naive_solver.
Qed.

Lemma elem_of_users_table (evs : list row) (r : row) :
  r ∈ rows (users_table_of evs) ↔ ∃ e, e ∈ evs ∧ is_song_play e ∧ r = user_row e.
Proof.
  cbn [rows users_table_of]. rewrite elem_of_remove_dups, list_elem_of_fmap.
  setoid_rewrite list_elem_of_filter. naive_solver.
Qed.

(** X7: user_id is not a key of the users table: after a run that
    completes, two song plays of one user_id at different levels give two
    different rows of the users table with that user_id. *)
Theorem users_table_keeps_every_level_of_a_user (env : Env) (w w' : World) :
  main env w = (Ok tt, w') →
  ∃ evs users,
    json_files env log_data_path event_fields = Some evs
    ∧ storage w' !! users_path = Some users
    ∧ ∀ e1 e2, e1 ∈ evs → e2 ∈ evs → is_song_play e1 → is_song_play e2 →
        field event_columns "user_id" e1 = field event_columns "user_id" e2 →
        field event_columns "level" e1 ≠ field event_columns "level" e2 →
        ∃ r1 r2, r1 ∈ rows (table users) ∧ r2 ∈ rows (table users) ∧ r1 ≠ r2
                 ∧ field users_columns "user_id" r1 = field event_columns "user_id" e1
                 ∧ field users_columns "user_id" r2 = field event_columns "user_id" e1
                 ∧ field users_columns "level" r1 = field event_columns "level" e1
                 ∧ field users_columns "level" r2 = field event_columns "level" e2.
Proof.
  intros Hm.
  destruct (main_ok_tables env w w' Hm) as (rs & evs & _ & Hj & _ & _ & Hu & _).
  exists evs, (stored_users evs). split_and!; try done.
  intros e1 e2 He1 He2 Hp1 Hp2 Hid Hlv.
  exists (user_row e1), (user_row e2).
  split; [apply elem_of_users_table; by exists e1|].
  split; [apply elem_of_users_table; by exists e2|].
  split.
  - intros Heq. apply Hlv.
    unfold user_row, users_columns in Heq. cbn [fmap list_fmap] in Heq.
    injection Heq as _ _ _ _ Hl. exact Hl.
  - split_and!; [reflexivity|symmetry; exact Hid|reflexivity|reflexivity].
Qed.

(** X8: start_time is a key of the time table: after a run that
    completes, two rows of the time table with the same start_time are
    the same row. *)
Theorem start_time_is_a_key_of_the_time_table (env : Env) (w w' : World) :
  main env w = (Ok tt, w') →
  ∃ st, storage w' !! time_path = Some st
        ∧ ∀ r1 r2, r1 ∈ rows (table st) → r2 ∈ rows (table st) →
            field time_columns "start_time" r1 = field time_columns "start_time" r2 →
            r1 = r2.
Proof.
  intros Hm.
  destruct (main_ok_tables env w w' Hm) as (rs & evs & _ & _ & _ & _ & _ & Ht & _).
  exists (stored_time evs). split; [done|].
  intros r1 r2 (e1 & _ & _ & ->)%elem_of_time_table (e2 & _ & _ & ->)%elem_of_time_table Heq.
  unfold time_row. change (event_ts e1 = event_ts e2) in Heq. by rewrite Heq.
Qed.

(** X9: the keys of a fact row resolve: after a run that completes, for
    every row of the songplays table there are a row of the time table
    with its event_ts as start_time and with its year and month, a row of
    the users table with its user_id and level, a row of the songs table
    with its song_id and a row of the artists table with its artist_id. *)
Theorem fact_rows_refer_to_dimension_rows (env : Env) (w w' : World) :
  main env w = (Ok tt, w') →
  ∃ songs artists users time plays,
    storage w' !! songs_path = Some songs
    ∧ storage w' !! artists_path = Some artists
    ∧ storage w' !! users_path = Some users
    ∧ storage w' !! time_path = Some time
    ∧ storage w' !! songplays_path = Some plays
    ∧ ∀ r, r ∈ rows (table plays) →
        (∃ t, t ∈ rows (table time)
              ∧ field time_columns "start_time" t = field songplays_columns "event_ts" r
              ∧ field time_columns "year" t = field songplays_columns "year" r
              ∧ field time_columns "month" t = field songplays_columns "month" r)
        ∧ (∃ u, u ∈ rows (table users)
                ∧ field users_columns "user_id" u = field songplays_columns "user_id" r
                ∧ field users_columns "level" u = field songplays_columns "level" r)
        ∧ (∃ s, s ∈ rows (table songs)
                ∧ field songs_columns "song_id" s = field songplays_columns "song_id" r)
        ∧ (∃ a, a ∈ rows (table artists)
                ∧ field artists_columns "artist_id" a
                  = field songplays_columns "artist_id" r).
Proof.
  intros Hm.
  destruct (main_ok_tables env w w' Hm) as (rs & evs & _ & _ & Hs & Ha & Hu & Ht & Hp).
  exists (stored_songs rs), (stored_artists rs), (stored_users evs), (stored_time evs),
    (stored_songplays evs (rows (songs_table_of rs)) (rows (artists_table_of rs))).
  split_and!; try done.
  intros r (e & s & a & He1 & He2 & Hs' & Ha' & _ & ->)%elem_of_songplays. split_and!.
  - exists (time_row e). split; [|done]. apply elem_of_time_table. by exists e.
  - exists (user_row e). split; [|done]. apply elem_of_users_table. by exists e.
  - by exists s.
  - by exists a.
Qed.

(** ** Events that add nothing *)

Lemma bind_nil_on (X Y : Type) (l : list X) (f : X → list Y) :
  (∀ x, x ∈ l → f x = []) → l ≫= f = [].
Proof.
  induction l as [|x l IH]; [done|]. intros Hf. cbn.
  rewrite Hf by apply list_elem_of_here. apply IH.
  intros y Hy. apply Hf. by apply list_elem_of_further.
Qed.

Lemma songplays_without_unmatched_event (evs1 evs2 : list row) (e : row) (S A : list row) :
  (∀ s a, s ∈ S → a ∈ A → ¬ matches e s a) →
  songplays_table_of (evs1 ++ e :: evs2) S A = songplays_table_of (evs1 ++ evs2) S A.
Proof.
  intros Hn. unfold songplays_table_of. do 2 f_equal.
  rewrite !filter_app, filter_cons.
  destruct (decide (is_song_play e)); [|done].
  rewrite !bind_app. f_equal. cbn [mbind list_bind].
  rewrite (bind_nil_on _ _ S); [done|]. intros s Hs.
  apply bind_nil_on. intros a Ha.
  by rewrite decide_False by by apply Hn.
Qed.

(** X10: the join is an inner join: an event whose song is the title of
    no song record read, or whose artist is the artist_name of none,
    gives no fact row; the songplays table a run leaves in the store is
    the one it leaves without that event. *)
Theorem unmatched_event_gives_no_fact_row
    (env : Env) (w : World) (rs evs1 evs2 : list row) (e : row) :
  json_files env song_data_path song_fields = Some rs →
  (∀ x, x ∈ rs → field song_columns "title" x ≠ field event_columns "song" e)
  ∨ (∀ x, x ∈ rs → field song_columns "artist_name" x ≠ field event_columns "artist" e) →
  storage (main (with_json log_data_path (evs1 ++ e :: evs2) env) w).2 !! songplays_path
  = storage (main (with_json log_data_path (evs1 ++ evs2) env) w).2 !! songplays_path.
Proof.
  intros Hj Hno.
  rewrite !main_storage, !main_plan_with_json, Hj.
  cbn [attempt].
  destruct (write_ok env songs_path); [|done].
  destruct (write_ok env artists_path); [|done].
  destruct (write_ok env users_path); [|done].
  destruct (write_ok env time_path);
    [|cbn [fst snd app write_all foldl];
      by repeat (rewrite lookup_insert_eq || rewrite lookup_insert_ne by done)].
  destruct (readable (stored_songs rs) && readable (stored_artists rs));
    [|cbn [fst snd app write_all foldl];
      by repeat (rewrite lookup_insert_eq || rewrite lookup_insert_ne by done)].
  destruct (write_ok env songplays_path);
    cbn [fst snd app write_all foldl];
    repeat (rewrite lookup_insert_eq || rewrite lookup_insert_ne by done); [|done].
  unfold stored_songplays. rewrite songplays_without_unmatched_event; [done|].
  intros s a Hs Ha [Hms Hma].
  cbn [rows songs_table_of artists_table_of] in Hs, Ha.
  apply elem_of_remove_dups, list_elem_of_fmap in Hs as (x & -> & Hx).
  apply elem_of_remove_dups, list_elem_of_fmap in Ha as (y & -> & Hy).
  apply sql_eq_true in Hms as [Hms _]. apply sql_eq_true in Hma as [Hma _].
  destruct Hno as [Hno|Hno]; [by apply (Hno x Hx)|by apply (Hno y Hy)].
Qed.

(** ** The empty catalog *)

(** X11: an empty catalog ends the run with an error: when the song
    files hold no record, the songs table is written, partitioned, without
    a row, and the read-back of it raises; the run ends with an analysis
    error after the users and time tables have been overwritten, the fact
    table is the one from before the run, and the session has not been
    stopped. *)
Theorem empty_catalog_stops_at_the_read_back (env : Env) (w : World) (evs : list row) :
  json_files env song_data_path song_fields = Some [] →
  json_files env log_data_path event_fields = Some evs →
  write_ok env songs_path = true → write_ok env artists_path = true →
  write_ok env users_path = true → write_ok env time_path = true →
  (main env w).1 = Raised AnalysisException
  ∧ (∃ songs, storage (main env w).2 !! songs_path = Some songs
              ∧ rows (table songs) = [] ∧ readable songs = false)
  ∧ (∃ artists, storage (main env w).2 !! artists_path = Some artists
                ∧ rows (table artists) = [])
  ∧ storage (main env w).2 !! users_path = Some (stored_users evs)
  ∧ storage (main env w).2 !! time_path = Some (stored_time evs)
  ∧ storage (main env w).2 !! songplays_path = storage w !! songplays_path
  ∧ stops (main env w).2 = stops w.
Proof.
  intros Hj1 Hj2 H1 H2 H3 H4.
  assert (main_plan env
          = (Raised AnalysisException,
             [(songs_path, stored_songs []); (artists_path, stored_artists []);
              (users_path, stored_users evs); (time_path, stored_time evs)])) as Hplan.
  { unfold main_plan, log_plan. cbv zeta.
    change ("s3a://udacity-dend/" +:+ "song_data/*/*/*/*.json") with song_data_path.
    change ("s3a://udacity-dend/" +:+ "log_data/*/*/*-events.json") with log_data_path.
    rewrite Hj1, Hj2. cbn [attempt].
    change ("s3n://data-lake-cluster/" +:+ "dimensions.parquet/songs") with songs_path.
    change ("s3n://data-lake-cluster/" +:+ "dimensions.parquet/artists") with artists_path.
    change ("s3n://data-lake-cluster/" +:+ "dimensions.parquet/users") with users_path.
    change ("s3n://data-lake-cluster/" +:+ "dimensions.parquet/time") with time_path.
    by rewrite H1, H2, H3, H4. }
  destruct (main_run env w) as [v ->]. rewrite Hplan.
  cbn [fst snd finish storage set_views set_storage write_all foldl].
  split_and!.
  - done.
  - exists (stored_songs []).
    by repeat (rewrite lookup_insert_eq || rewrite lookup_insert_ne by done).
  - exists (stored_artists []).
    by repeat (rewrite lookup_insert_eq || rewrite lookup_insert_ne by done).
  - by repeat (rewrite lookup_insert_eq || rewrite lookup_insert_ne by done).
  - by repeat (rewrite lookup_insert_eq || rewrite lookup_insert_ne by done).
  - by repeat (rewrite lookup_insert_eq || rewrite lookup_insert_ne by done).
  - unfold stops. cbn [session_log set_views set_storage].
    unfold started. by destruct (active w).
Qed.

(** ** Repeated events *)




End Further.

(** * The properties on example runs, with the reference engine *)

Import Reference.

Example parse_song_schema_columns :
  parse_ddl song_schema
  = Some [("song_id", STRING); ("num_songs", INT); ("artist_id", STRING);
          ("artist_latitude", DOUBLE); ("artist_longitude", DOUBLE);
          ("artist_location", STRING); ("artist_name", STRING);
          ("title", STRING); ("duration", DOUBLE); ("year", INT)].
Proof. vm_compute. reflexivity. Qed.

Example event_ts_1500000000000 :
  timestamp_of_millis 1500000000000 = (VTs 1500000000000000 : value spec_float Z).
Proof. vm_compute. reflexivity. Qed.

(* 2017-07-14 02:40:00 UTC, a Friday, in ISO week 28 *)
Example calendar_1500000000 :
  let t := 1500000000000000 in
  (utc_year t, utc_month t, utc_day t, utc_hour t, utc_weekofyear t, utc_dayofweek t)
  = (2017, 7, 14, 2, 28, 6).
Proof. vm_compute. reflexivity. Qed.

(* one play of a song of the catalog gives one fact row *)
Example scenario_songplays :
  (main scenario empty_world).1 = Ok tt
  ∧ storage (main scenario empty_world).2 !! songplays_path
    = Some {| partition_by := ["year"; "month"];
              table := {| columns := songplays_columns;
                          rows := [[VTs 1500000000000000; VInt 2017; VInt 7; VInt 7;
                                    VStr "paid"; VInt 42; VStr "NYC"; VStr "UA1";
                                    VStr "S1"; VStr "A1"]] |} |}.
Proof. vm_compute. done. Qed.

(* one play, two songs of its title: two fact rows, the second with the
   song of one artist and the id of the other *)
Example two_hellos_songplays :
  (λ st, rows (table st)) <$> storage (main two_hellos empty_world).2 !! songplays_path
  = Some [[VTs 1500000000000000; VInt 2017; VInt 7; VInt 7; VStr "paid"; VInt 42;
           VStr "NYC"; VStr "UA1"; VStr "S1"; VStr "A1"];
          [VTs 1500000000000000; VInt 2017; VInt 7; VInt 7; VStr "paid"; VInt 42;
           VStr "NYC"; VStr "UA1"; VStr "S2"; VStr "A1"]].
Proof. vm_compute. reflexivity. Qed.

(** C1, counterexample: no input file matches, the song pipeline raises,
    and [main] ends with the session neither stopped nor released. *)
Lemma session_left_open_when_input_is_missing :
  (main no_files empty_world).1 = Raised AnalysisException
  ∧ stops (main no_files empty_world).2 ≠ S (stops empty_world)
  ∧ is_Some (active (main no_files empty_world).2).
Proof. vm_compute. split_and!; [done|lia|by eexists]. Qed.

(** C2, counterexample: on the one-play run the songplays table has no
    column start_time; its first column is event_ts. *)
Lemma songplays_has_no_start_time_column :
  (main scenario empty_world).1 = Ok tt
  ∧ ¬ ∃ st, storage (main scenario empty_world).2 !! songplays_path = Some st
            ∧ columns (table st)
              = ["start_time"; "year"; "month"; "user_id"; "level"; "session_id";
                 "location"; "user_agent"; "song_id"; "artist_id"]
            ∧ partition_by st = ["year"; "month"].
Proof.
  split; [vm_compute; reflexivity|].
  intros (st & Hst & Hc & _). vm_compute in Hst.
  injection Hst as <-. discriminate Hc.
Qed.

(* C2 on the one-play run *)
Lemma songplays_columns_and_partitions_witness :
  ∃ st, storage (main scenario empty_world).2 !! songplays_path = Some st
        ∧ columns (table st)
          = ["event_ts"; "year"; "month"; "user_id"; "level"; "session_id";
             "location"; "user_agent"; "song_id"; "artist_id"]
        ∧ partition_by st = ["year"; "month"].
Proof.
  apply (songplays_columns_and_partitions scenario empty_world).
  vm_compute. reflexivity.
Defined.

(** C3, counterexample: the catalog's answer for "event" is not the list
    of the data model: last_name is fourth there, sixth here. *)
Lemma event_schema_is_not_in_the_order_of_the_data_model :
  schema_catalog "event" ≠ Some spec_event_record.
Proof. vm_compute. discriminate. Qed.

(* C3 on an identifier that is neither "song" nor "event" *)
Lemma schema_catalog_contract_witness : schema_catalog "user" = None.
Proof.
  destruct schema_catalog_contract as (_ & _ & _ & Hnone).
  apply Hnone. split; discriminate.
Defined.

(* C4 on the one-play run *)
Lemma songplays_join_exact_witness :
  ∃ evs songs artists plays,
    json_files scenario log_data_path event_fields = Some evs
    ∧ storage (main scenario empty_world).2 !! songs_path = Some songs
    ∧ storage (main scenario empty_world).2 !! artists_path = Some artists
    ∧ storage (main scenario empty_world).2 !! songplays_path = Some plays
    ∧ (∀ r, r ∈ rows (table plays) →
         ∃ e s a, e ∈ evs ∧ is_song_play e
                  ∧ s ∈ rows (table songs) ∧ a ∈ rows (table artists)
                  ∧ matches e s a ∧ r = songplay_row e s a)
    ∧ (∀ e s a, e ∈ evs → is_song_play e →
         s ∈ rows (table songs) → a ∈ rows (table artists) → matches e s a →
         length (filter (λ r, r = songplay_row e s a) (rows (table plays))) = 1%nat).
Proof.
  apply (songplays_join_exact scenario empty_world).
  vm_compute. reflexivity.
Defined.

(* C5: a PageView event after the play changes nothing *)
Lemma only_song_plays_count_witness :
  (main (with_json log_data_path [play_hello; page_view] scenario) empty_world).1
  = (main (with_json log_data_path [play_hello] scenario) empty_world).1
  ∧ storage (main (with_json log_data_path [play_hello; page_view] scenario) empty_world).2
    = storage (main (with_json log_data_path [play_hello] scenario) empty_world).2.
Proof.
  apply (only_song_plays_count scenario empty_world [play_hello; page_view] [play_hello]).
  vm_compute. reflexivity.
Defined.

(* C6 on the run that reads the catalog record twice and the play twice *)
Lemma dimension_tables_have_no_duplicates_witness :
  ∃ rs evs songs artists users time,
    json_files repeats song_data_path song_fields = Some rs
    ∧ json_files repeats log_data_path event_fields = Some evs
    ∧ storage (main repeats empty_world).2 !! songs_path = Some songs
    ∧ storage (main repeats empty_world).2 !! artists_path = Some artists
    ∧ storage (main repeats empty_world).2 !! users_path = Some users
    ∧ storage (main repeats empty_world).2 !! time_path = Some time
    ∧ NoDup (rows (table songs)) ∧ NoDup (rows (table artists))
    ∧ NoDup (rows (table users)) ∧ NoDup (rows (table time))
    ∧ (∀ x, x ∈ rs →
         length (filter (λ r, r = song_row x) (rows (table songs))) = 1%nat
         ∧ length (filter (λ r, r = artist_row x) (rows (table artists))) = 1%nat)
    ∧ (∀ e, e ∈ evs → is_song_play e →
         length (filter (λ r, r = user_row e) (rows (table users))) = 1%nat
         ∧ length (filter (λ r, r = time_row e) (rows (table time))) = 1%nat).
Proof.
  apply (dimension_tables_have_no_duplicates repeats empty_world).
  vm_compute. reflexivity.
Defined.

(* two equal song records and two equal plays leave one row in each
   dimension table *)
Example repeats_dimension_rows :
  (λ st, rows (table st)) <$> storage (main repeats empty_world).2 !! songs_path
  = Some [[VStr "S1"; VStr "Hello"; VStr "A1"; VInt 2015; VDbl (b64_of_Z 295)]]
  ∧ (λ st, rows (table st)) <$> storage (main repeats empty_world).2 !! artists_path
    = Some [[VStr "A1"; VStr "Adele"; VNull; VNull; VNull]]
  ∧ (λ st, rows (table st)) <$> storage (main repeats empty_world).2 !! users_path
    = Some [[VInt 7; VNull; VNull; VNull; VStr "paid"]]
  ∧ (λ st, rows (table st)) <$> storage (main repeats empty_world).2 !! time_path
    = Some [[VTs 1500000000000000; VInt 2; VInt 14; VInt 28; VInt 7; VInt 2017; VInt 6]].
Proof. vm_compute. done. Qed.

(* C7 on the one-play run *)
Lemma time_rows_from_event_timestamps_witness :
  ∃ evs st,
    json_files scenario log_data_path event_fields = Some evs
    ∧ storage (main scenario empty_world).2 !! time_path = Some st
    ∧ columns (table st) = ["start_time"; "hour"; "day"; "week"; "month"; "year"; "weekday"]
    ∧ (∀ e T, e ∈ evs → is_song_play e → field event_columns "ts" e = VInt T →
         ∃ r, r ∈ rows (table st)
              ∧ field time_columns "start_time" r = timestamp_of_millis T)
    ∧ (∀ r, r ∈ rows (table st) →
         (∃ e, e ∈ evs ∧ is_song_play e
               ∧ field time_columns "start_time" r = event_ts e)
         ∧ field time_columns "hour" r = on_timestamp hour (field time_columns "start_time" r)
         ∧ field time_columns "day" r = on_timestamp day (field time_columns "start_time" r)
         ∧ field time_columns "week" r
           = on_timestamp weekofyear (field time_columns "start_time" r)
         ∧ field time_columns "month" r = on_timestamp month (field time_columns "start_time" r)
         ∧ field time_columns "year" r = on_timestamp year (field time_columns "start_time" r)
         ∧ field time_columns "weekday" r
           = on_timestamp dayofweek (field time_columns "start_time" r)).
Proof.
  apply (time_rows_from_event_timestamps scenario empty_world).
  vm_compute. reflexivity.
Defined.

(* C9 on the run with two songs of one title *)
Lemma songplays_join_ignores_artist_id_witness :
  ∃ evs songs artists plays,
    json_files two_hellos log_data_path event_fields = Some evs
    ∧ storage (main two_hellos empty_world).2 !! songs_path = Some songs
    ∧ storage (main two_hellos empty_world).2 !! artists_path = Some artists
    ∧ storage (main two_hellos empty_world).2 !! songplays_path = Some plays
    ∧ (∀ e s a, e ∈ evs → is_song_play e →
         s ∈ rows (table songs) → a ∈ rows (table artists) → matches e s a →
         songplay_row e s a ∈ rows (table plays)
         ∧ field songplays_columns "song_id" (songplay_row e s a)
           = field songs_columns "song_id" s
         ∧ field songplays_columns "artist_id" (songplay_row e s a)
           = field artists_columns "artist_id" a)
    ∧ (∀ e s1 a1 s2 a2, e ∈ evs → is_song_play e →
         s1 ∈ rows (table songs) → a1 ∈ rows (table artists) → matches e s1 a1 →
         s2 ∈ rows (table songs) → a2 ∈ rows (table artists) → matches e s2 a2 →
         (field songs_columns "song_id" s1 ≠ field songs_columns "song_id" s2
          ∨ field artists_columns "artist_id" a1 ≠ field artists_columns "artist_id" a2) →
         songplay_row e s1 a1 ∈ rows (table plays)
         ∧ songplay_row e s2 a2 ∈ rows (table plays)
         ∧ songplay_row e s1 a1 ≠ songplay_row e s2 a2).
Proof.
  apply (songplays_join_ignores_artist_id two_hellos empty_world).
  vm_compute. reflexivity.
Defined.

(* C10: a play without song and artist, against a catalog with an untitled
   record *)
Lemma null_song_or_artist_gives_no_fact_row_witness :
  (∀ s a, ¬ matches play_unknown s a)
  ∧ storage (main (with_json log_data_path ([play_hello] ++ play_unknown :: [])
                     with_untitled) empty_world).2 !! songplays_path
    = storage (main (with_json log_data_path ([play_hello] ++ [])
                       with_untitled) empty_world).2 !! songplays_path.
Proof.
  apply (null_song_or_artist_gives_no_fact_row with_untitled empty_world
           [play_hello] [] play_unknown).
  left. vm_compute. reflexivity.
Defined.

(* the untitled catalog record is in the songs table, with a null title *)
Example untitled_song_in_catalog :
  (λ st, rows (table st)) <$> storage (main with_untitled empty_world).2 !! songs_path
  = Some [[VStr "S1"; VStr "Hello"; VStr "A1"; VInt 2015; VDbl (b64_of_Z 295)];
          [VStr "S3"; VNull; VStr "A3"; VInt 0; VNull]].
Proof. vm_compute. reflexivity. Qed.

(* both exits of the driver *)
Example session_on_both_exits :
  session_log (main scenario empty_world).2 = [SessionStopped; SessionCreated]
  ∧ session_log (main no_files empty_world).2 = [SessionCreated].
Proof. vm_compute. done. Qed.

(** * The further properties on example runs *)

(* X2, at a path that is not an output of the job *)
Lemma main_changes_its_five_tables_only_witness :
  storage (main scenario empty_world).2 !! "s3n://data-lake-cluster/other"
  = storage empty_world !! "s3n://data-lake-cluster/other".
Proof.
  apply (main_changes_its_five_tables_only scenario empty_world).
  refine (bool_decide_unpack _ _); vm_compute; exact I.
Defined.

(* X3, at the users path *)
Lemma song_pipeline_touches_two_tables_only_witness :
  storage (process_song_data a_session "s3a://udacity-dend/" "s3n://data-lake-cluster/"
             scenario empty_world).2 !! users_path
  = storage empty_world !! users_path.
Proof.
  apply (song_pipeline_touches_two_tables_only a_session "s3a://udacity-dend/"
           "s3n://data-lake-cluster/" scenario empty_world).
  - vm_compute. discriminate.
  - vm_compute. discriminate.
Defined.

(* X4, with the writes at the songplays path refused *)
Lemma refused_fact_write_keeps_new_dimensions_witness :
  (main (refusing songplays_path scenario) empty_world).1 = Raised IOError
  ∧ storage (main (refusing songplays_path scenario) empty_world).2 !! songs_path
    = Some (stored_songs [song_hello])
  ∧ storage (main (refusing songplays_path scenario) empty_world).2 !! artists_path
    = Some (stored_artists [song_hello])
  ∧ storage (main (refusing songplays_path scenario) empty_world).2 !! users_path
    = Some (stored_users [play_hello])
  ∧ storage (main (refusing songplays_path scenario) empty_world).2 !! time_path
    = Some (stored_time [play_hello])
  ∧ storage (main (refusing songplays_path scenario) empty_world).2 !! songplays_path
    = storage empty_world !! songplays_path
  ∧ stops (main (refusing songplays_path scenario) empty_world).2 = stops empty_world.
Proof.
  apply (refused_fact_write_keeps_new_dimensions (refusing songplays_path scenario)
           empty_world [song_hello] [play_hello]);
    first [discriminate | vm_compute; reflexivity].
Defined.

(* X5 on the one-play run *)
Lemma dimension_tables_layout_witness :
  ∃ songs artists users time,
    storage (main scenario empty_world).2 !! songs_path = Some songs
    ∧ storage (main scenario empty_world).2 !! artists_path = Some artists
    ∧ storage (main scenario empty_world).2 !! users_path = Some users
    ∧ storage (main scenario empty_world).2 !! time_path = Some time
    ∧ columns (table songs) = ["song_id"; "title"; "artist_id"; "year"; "duration"]
    ∧ partition_by songs = ["year"; "artist_id"]
    ∧ columns (table artists) = ["artist_id"; "name"; "location"; "latitude"; "longitude"]
    ∧ partition_by artists = []
    ∧ columns (table users) = ["user_id"; "first_name"; "last_name"; "gender"; "level"]
    ∧ partition_by users = []
    ∧ partition_by time = ["year"; "month"].
Proof.
  apply (dimension_tables_layout scenario empty_world).
  vm_compute. reflexivity.
Defined.

(* X6 on the run with two songs *)
Lemma songs_and_artists_are_the_projected_records_witness :
  ∃ rs songs artists,
    json_files two_hellos song_data_path song_fields = Some rs
    ∧ storage (main two_hellos empty_world).2 !! songs_path = Some songs
    ∧ storage (main two_hellos empty_world).2 !! artists_path = Some artists
    ∧ (∀ r, r ∈ rows (table songs) ↔
         ∃ x, x ∈ rs
              ∧ r = [field song_columns "song_id" x; field song_columns "title" x;
                     field song_columns "artist_id" x; field song_columns "year" x;
                     field song_columns "duration" x])
    ∧ (∀ r, r ∈ rows (table artists) ↔
         ∃ x, x ∈ rs
              ∧ r = [field song_columns "artist_id" x; field song_columns "artist_name" x;
                     field song_columns "artist_location" x;
                     field song_columns "artist_latitude" x;
                     field song_columns "artist_longitude" x]).
Proof.
  apply (songs_and_artists_are_the_projected_records two_hellos empty_world).
  vm_compute. reflexivity.
Defined.

(* X7: one user, a paid play and a free play *)
Lemma users_table_keeps_every_level_of_a_user_witness :
  ∃ r1 r2,
    r1 ∈ [[VInt 7; VNull; VNull; VNull; VStr "paid"]; [VInt 7; VNull; VNull; VNull; VStr "free"]]
    ∧ r2 ∈ [[VInt 7; VNull; VNull; VNull; VStr "paid"]; [VInt 7; VNull; VNull; VNull; VStr "free"]]
    ∧ r1 ≠ r2
    ∧ field users_columns "user_id" r1 = (VInt 7 : value spec_float Z)
    ∧ field users_columns "user_id" r2 = VInt 7
    ∧ field users_columns "level" r1 = VStr "paid"
    ∧ field users_columns "level" r2 = VStr "free".
Proof.
  destruct (users_table_keeps_every_level_of_a_user
              (files [song_hello] [play_hello; play_hello_free]) empty_world
              (main (files [song_hello] [play_hello; play_hello_free]) empty_world).2)
    as (evs & users & Hj & Hu & Hrows).
  { vm_compute. reflexivity. }
  vm_compute in Hj, Hu. injection Hj as <-. injection Hu as <-.
  apply (Hrows play_hello play_hello_free).
  - refine (bool_decide_unpack _ _); vm_compute; exact I.
  - refine (bool_decide_unpack _ _); vm_compute; exact I.
  - vm_compute. split; reflexivity.
  - vm_compute. split; reflexivity.
  - vm_compute. reflexivity.
  - vm_compute. discriminate.
Defined.

(* X8 on the one-play run *)
Lemma start_time_is_a_key_of_the_time_table_witness :
  ∃ st, storage (main scenario empty_world).2 !! time_path = Some st
        ∧ ∀ r1 r2, r1 ∈ rows (table st) → r2 ∈ rows (table st) →
            field time_columns "start_time" r1 = field time_columns "start_time" r2 →
            r1 = r2.
Proof.
  apply (start_time_is_a_key_of_the_time_table scenario empty_world).
  vm_compute. reflexivity.
Defined.

(* X9 on the run with two songs *)
Lemma fact_rows_refer_to_dimension_rows_witness :
  ∃ songs artists users time plays,
    storage (main two_hellos empty_world).2 !! songs_path = Some songs
    ∧ storage (main two_hellos empty_world).2 !! artists_path = Some artists
    ∧ storage (main two_hellos empty_world).2 !! users_path = Some users
    ∧ storage (main two_hellos empty_world).2 !! time_path = Some time
    ∧ storage (main two_hellos empty_world).2 !! songplays_path = Some plays
    ∧ ∀ r, r ∈ rows (table plays) →
        (∃ t, t ∈ rows (table time)
              ∧ field time_columns "start_time" t = field songplays_columns "event_ts" r
              ∧ field time_columns "year" t = field songplays_columns "year" r
              ∧ field time_columns "month" t = field songplays_columns "month" r)
        ∧ (∃ u, u ∈ rows (table users)
                ∧ field users_columns "user_id" u = field songplays_columns "user_id" r
                ∧ field users_columns "level" u = field songplays_columns "level" r)
        ∧ (∃ s, s ∈ rows (table songs)
                ∧ field songs_columns "song_id" s = field songplays_columns "song_id" r)
        ∧ (∃ a, a ∈ rows (table artists)
                ∧ field artists_columns "artist_id" a
                  = field songplays_columns "artist_id" r).
Proof.
  apply (fact_rows_refer_to_dimension_rows two_hellos empty_world).
  vm_compute. reflexivity.
Defined.

(* X10: a play of a song that is not in the catalog, after a play of one
   that is *)
Lemma unmatched_event_gives_no_fact_row_witness :
  storage (main (with_json log_data_path ([play_hello] ++ play_other :: []) scenario)
             empty_world).2 !! songplays_path
  = storage (main (with_json log_data_path ([play_hello] ++ []) scenario)
               empty_world).2 !! songplays_path.
Proof.
  apply (unmatched_event_gives_no_fact_row scenario empty_world [song_hello]).
  - vm_compute. reflexivity.
  - left. intros x Hx. apply list_elem_of_singleton in Hx as ->.
    vm_compute. discriminate.
Defined.

(* X11: no song record, one play *)
Lemma empty_catalog_stops_at_the_read_back_witness :
  (main (files [] [play_hello]) empty_world).1 = Raised AnalysisException
  ∧ (∃ songs, storage (main (files [] [play_hello]) empty_world).2 !! songs_path = Some songs
              ∧ rows (table songs) = [] ∧ readable songs = false)
  ∧ (∃ artists,
       storage (main (files [] [play_hello]) empty_world).2 !! artists_path = Some artists
       ∧ rows (table artists) = [])
  ∧ storage (main (files [] [play_hello]) empty_world).2 !! users_path
    = Some (stored_users [play_hello])
  ∧ storage (main (files [] [play_hello]) empty_world).2 !! time_path
    = Some (stored_time [play_hello])
  ∧ storage (main (files [] [play_hello]) empty_world).2 !! songplays_path
    = storage empty_world !! songplays_path
  ∧ stops (main (files [] [play_hello]) empty_world).2 = stops empty_world.
Proof.
  apply (empty_catalog_stops_at_the_read_back (files [] [play_hello]) empty_world
           [play_hello]); vm_compute; reflexivity.
Defined.


(* X13: the log pipeline alone, on an empty store *)
Lemma log_pipeline_needs_the_catalog_tables_witness :
  ∃ w', process_log_data a_session "s3a://udacity-dend/" "s3n://data-lake-cluster/"
          scenario empty_world = (Raised AnalysisException, w')
        ∧ storage w' !! ("s3n://data-lake-cluster/" +:+ "dimensions.parquet/users")
          = Some (stored_users [play_hello])
        ∧ storage w' !! ("s3n://data-lake-cluster/" +:+ "dimensions.parquet/time")
          = Some (stored_time [play_hello])
        ∧ storage w' !! ("s3n://data-lake-cluster/" +:+ "facts.parquet/songplays")
          = storage empty_world !! ("s3n://data-lake-cluster/" +:+ "facts.parquet/songplays")
        ∧ views w' = views empty_world.
Proof.
  apply (log_pipeline_needs_the_catalog_tables a_session "s3a://udacity-dend/"
           "s3n://data-lake-cluster/" scenario empty_world [play_hello]).
  - vm_compute. reflexivity.
  - reflexivity.
  - reflexivity.
  - left. vm_compute. reflexivity.
Defined.

(* X15: the log pipeline after the song pipeline, on the one-play input *)
Lemma log_pipeline_joins_the_stored_tables_witness :
  ∃ evs ss sa df,
    json_files scenario ("s3a://udacity-dend/" +:+ "log_data/*/*/*-events.json") event_fields
      = Some evs
    ∧ storage after_song_pipeline
        !! ("s3n://data-lake-cluster/" +:+ "dimensions.parquet/songs") = Some ss
    ∧ storage after_song_pipeline
        !! ("s3n://data-lake-cluster/" +:+ "dimensions.parquet/artists") = Some sa
    ∧ run_query songplays_query
        [("ev", events_view evs); ("s", table ss); ("a", table sa)] = Some df
    ∧ storage after_log_pipeline
        !! ("s3n://data-lake-cluster/" +:+ "facts.parquet/songplays")
      = Some {| partition_by := ["year"; "month"]; table := df |}
    ∧ views after_log_pipeline !! "song" = Some (table ss)
    ∧ views after_log_pipeline !! "artist" = Some (table sa)
    ∧ views after_log_pipeline !! "events" = Some (events_view evs)
    ∧ ∀ name, name ≠ "song" → name ≠ "artist" → name ≠ "events" →
        views after_log_pipeline !! name = views after_song_pipeline !! name.
Proof.
  apply (log_pipeline_joins_the_stored_tables a_session "s3a://udacity-dend/"
           "s3n://data-lake-cluster/" scenario after_song_pipeline after_log_pipeline).
  vm_compute. reflexivity.
Defined.

(* the log pipeline on a store whose catalog tables come from an earlier
   run joins against them *)
Example stale_catalog_is_joined :
  (λ st, rows (table st))
    <$> storage (process_log_data a_session "s3a://udacity-dend/" "s3n://data-lake-cluster/"
                   (files [] [play_hello]) (main two_hellos empty_world).2).2
        !! songplays_path
  = (λ st, rows (table st)) <$> storage (main two_hellos empty_world).2 !! songplays_path.
Proof. vm_compute. reflexivity. Qed.
